(** * Scroll-driven background cross-fade of main.js

    A shallow embedding of section 3 of main.js (the IIFE
    [scrollDrivenBackground] with its two variants [globalBG] and
    [chaptersBG]) together with the layer creation of [bootstrap].

    DOM elements are records of exactly what the script reads and writes:
    the class list, the attributes and the inline style.  A closure of the
    script becomes a record that holds the elements it captured and its
    mutable variable [useA]; an IntersectionObserver callback becomes a
    function from that record and one entry to the next record.

    An assignment to an inline style goes through the CSS parser of the
    browser, which is no part of the script.  The model reads the
    declarations every CSS parser reads alike (a quoted URL without quote
    marks, line breaks or numeric escapes; a custom-property value made of
    plain tokens) and takes the browser's answer to every other text as a
    parameter, the class [Browser].

    What the model leaves out: the position of elements in the tree (the
    queries of the script are fields of the document records), the style
    sheet, and the case of one element matched by two of the queries
    (the two layers and the overlay are three elements). *)

From Stdlib Require Import Ascii QArith Qminmax.
Close Scope Q_scope.
From stdpp Require Import base strings list gmap pretty.

Open Scope string_scope.

(** ** JavaScript values the script relies on *)

(** [!s] on a string: the empty string is falsy. *)
Definition truthy_string (s : string) : bool := bool_decide (s ≠ "").

(** Truthiness of what [getAttribute] returns: [null] and [''] are falsy. *)
Definition truthy (o : option string) : bool :=
  match o with
  | Some s => truthy_string s
  | None => false
  end.

(** [a || b] when the result is used as a string that may be [null]. *)
Definition js_or (a b : option string) : option string :=
  if truthy a then a else b.

(** [(a || '')], the result being a string. *)
Definition or_empty (a : option string) : string :=
  match a with
  | Some s => s
  | None => ""
  end.

(** [s.includes(t)]: [t] occurs in [s] as a contiguous substring. *)
Fixpoint includes (s t : string) : bool :=
  if String.prefix t s then true
  else match s with
       | EmptyString => false
       | String _ s' => includes s' t
       end.

(** The template literal [`url('${u}')`]. *)
Definition css_url (u : string) : string := "url('" +:+ u +:+ "')".

(** How [e.style.backgroundImage] reads a URL value back: between double
    quotes, a URL of plain characters as it is. *)
Definition dquote : string := String "034"%char EmptyString.

Definition serialized_url (v : string) : string :=
  "url(" +:+ dquote +:+ v +:+ dquote +:+ ")".

(** ** DOM elements *)

Record Element := mkElement {
  classList : list string;          (* DOMTokenList, in order *)
  attributes : gmap string string;  (* getAttribute / setAttribute *)
  style : gmap string string        (* inline style declarations *)
}.

(** [el(tag, cls)]: a fresh element whose className is [cls]. *)
Definition el (cls : string) : Element :=
  {| classList := String.words cls; attributes := ∅; style := ∅ |}.

Definition getAttribute (e : Element) (name : string) : option string :=
  attributes e !! name.

Definition setAttribute (name value : string) (e : Element) : Element :=
  {| classList := classList e;
     attributes := <[name := value]> (attributes e);
     style := style e |}.

(** Reading [e.style.prop]: the empty string when nothing is declared. *)
Definition style_get (e : Element) (prop : string) : string :=
  default "" (style e !! prop).

(** The declaration block once the CSS parser has kept the value [v] for
    [prop]: what [e.style.prop] reads from then on.  The script assigns
    two constant heights, ['120px'] and ['140vh']: lengths, kept as
    written.  Its other two assignments depend on the page and go through
    [set_backgroundImage] and [setProperty] below. *)
Definition style_set (prop v : string) (e : Element) : Element :=
  {| classList := classList e;
     attributes := attributes e;
     style := <[prop := v]> (style e) |}.

Definition contains (e : Element) (tok : string) : bool :=
  bool_decide (tok ∈ classList e).

(** [e.classList.add(tok)]: appended unless present. *)
Definition classList_add (tok : string) (e : Element) : Element :=
  {| classList := if contains e tok then classList e else classList e ++ [tok];
     attributes := attributes e;
     style := style e |}.

(** [e.classList.remove(tok)]. *)
Definition classList_remove (tok : string) (e : Element) : Element :=
  {| classList := filter (λ c, c ≠ tok) (classList e);
     attributes := attributes e;
     style := style e |}.

(** [e.classList.toggle(tok, force)]. *)
Definition classList_toggle (tok : string) (force : bool) (e : Element) : Element :=
  if force then classList_add tok e else classList_remove tok e.

Definition backgroundImage (e : Element) : string := style_get e "background-image".

Definition is_active (e : Element) : bool := contains e "is-active".

(** ** What the browser keeps of a declaration *)

Definition code (a : ascii) : nat := nat_of_ascii a.

(** A printable ASCII character other than the space, the two quote marks
    and the backslash: inside a quoted CSS string it stands for itself, and
    it is written back as it is when the string is serialized. *)
Definition plain_char (a : ascii) : bool :=
  (33 <=? code a)%nat && (code a <=? 126)%nat &&
  negb (Ascii.eqb a "'"%char) && negb (Ascii.eqb a "034"%char) &&
  negb (Ascii.eqb a "\"%char).

Definition hex_digit (a : ascii) : bool :=
  ((48 <=? code a) && (code a <=? 57) ||
   (65 <=? code a) && (code a <=? 70) ||
   (97 <=? code a) && (code a <=? 102))%nat.

(** A URL all of whose characters are plain. *)
Fixpoint plain_url (u : string) : bool :=
  match u with
  | EmptyString => true
  | String a r => plain_char a && plain_url r
  end.

(** The value of the CSS string ['u'] when [u] stays within what the model
    reads: plain characters, and a backslash before a plain character that
    is no hexadecimal digit, which escapes that character (the backslash is
    dropped).  [None] for any other [u]: one with a quote mark, which ends
    the string early; a space, a line break or another control character;
    a backslash before a hexadecimal digit, which starts a numeric escape,
    or at the end; a character outside ASCII. *)
Fixpoint css_string (u : string) : option string :=
  match u with
  | EmptyString => Some EmptyString
  | String a r =>
      if Ascii.eqb a "\"%char
      then match r with
           | String c r' =>
               if plain_char c && negb (hex_digit c)
               then String c <$> css_string r'
               else None
           | EmptyString => None
           end
      else if plain_char a then String a <$> css_string r else None
  end.

Definition to_lower (a : ascii) : ascii :=
  if (65 <=? code a)%nat && (code a <=? 90)%nat
  then ascii_of_nat (code a + 32) else a.

Fixpoint lower (s : string) : string :=
  match s with
  | EmptyString => EmptyString
  | String a r => String (to_lower a) (lower r)
  end.

(** The characters of the values the model reads for a custom property:
    letters, digits and [# . , % - ( )]. *)
Definition value_char (a : ascii) : bool :=
  ((48 <=? code a) && (code a <=? 57) ||
   (65 <=? code a) && (code a <=? 90) ||
   (97 <=? code a) && (code a <=? 122))%nat ||
  bool_decide (a ∈ ["#"; "."; ","; "%"; "-"; "("; ")"]%char).

Fixpoint all_value_chars (s : string) : bool :=
  match s with
  | EmptyString => true
  | String a r => value_char a && all_value_chars r
  end.

(** Parentheses are balanced, [depth] of them being open. *)
Fixpoint balanced (depth : nat) (s : string) : bool :=
  match s with
  | EmptyString => bool_decide (depth = 0%nat)
  | String a r =>
      if Ascii.eqb a "("%char then balanced (S depth) r
      else if Ascii.eqb a ")"%char
           then match depth with
                | O => false
                | S d => balanced d r
                end
           else balanced depth r
  end.

(** A value of a custom property that every CSS parser keeps as written:
    not empty, made of the characters above (so without surrounding white
    space, string, comment, semicolon or exclamation mark), with balanced
    parentheses and without a [url(] token. *)
Definition plain_value (v : string) : bool :=
  bool_decide (v ≠ "") && all_value_chars v && balanced 0 v &&
  negb (includes (lower v) "url(").

(** The CSS parser of the browser on the texts the model does not read
    itself.  [parse_image text] is what [e.style.backgroundImage] reads
    after [e.style.backgroundImage = text]: [Some v] when the declaration is
    kept, read back as [v]; [None] when it is dropped and the earlier
    declaration stays.  [parse_custom text] is the same for
    [e.style.setProperty('--name', text)] with a text that is not empty. *)
Class Browser := {
  parse_image : string → option string;
  parse_custom : string → option string
}.

(** What the browser keeps of [`url('${url}')`], as it reads it back.
    Within the fragment the declaration is kept, with the value of the
    string as its URL. *)
Definition css_image `{!Browser} (url : string) : option string :=
  match css_string url with
  | Some v => Some (serialized_url v)
  | None => parse_image (css_url url)
  end.

Definition css_custom `{!Browser} (v : string) : option string :=
  if plain_value v then Some v else parse_custom v.

(** [e.style.backgroundImage = `url('${url}')`] *)
Definition set_backgroundImage `{!Browser} (url : string) (e : Element) : Element :=
  match css_image url with
  | Some v => style_set "background-image" v e
  | None => e
  end.

(** [e.style.setProperty(prop, v)] for a custom property and [v] not empty. *)
Definition setProperty `{!Browser} (prop v : string) (e : Element) : Element :=
  match css_custom v with
  | Some w => style_set prop w e
  | None => e
  end.

(** A parser that keeps nothing outside the fragment.  A statement that
    names no browser is evaluated with it.  The pages of such statements
    write nothing outside the fragment, so that any other browser gives
    the same; the one exception is the marker whose image name has an
    apostrophe, whose declaration this parser drops, as browsers do. *)
Definition fragment_only : Browser :=
  {| parse_image := λ _, None; parse_custom := λ _, None |}.

(** An IntersectionObserverEntry, as far as the callbacks read it. *)
Record Entry := mkEntry {
  isIntersecting : bool;
  target : Element
}.

(** [preload(url)]: starts an image fetch unless [url] is falsy.  The fetch
    is recorded in the log of requested URLs, oldest first. *)
Definition preload (url : string) (log : list string) : list string :=
  if truthy_string url then log ++ [url] else log.

(** ** Variant A: global background ([globalBG]) *)

Module Global.

(** What the closure of [globalBG] holds once it has run: the captured
    elements, the variable [useA], the targets given to [io.observe]
    and the image fetches started so far. *)
Record State := mkState {
  layerA : Element;
  layerB : Element;
  overlay : option Element;
  useA : bool;
  observed : list Element;
  preloaded : list string
}.

Definition active (st : State) : Element :=
  if useA st then layerA st else layerB st.

Definition inactive (st : State) : Element :=
  if useA st then layerB st else layerA st.

(** A write through the reference [active] (resp. [inactive]). *)
Definition on_active (f : Element → Element) (st : State) : State :=
  if useA st
  then mkState (f (layerA st)) (layerB st) (overlay st) (useA st) (observed st) (preloaded st)
  else mkState (layerA st) (f (layerB st)) (overlay st) (useA st) (observed st) (preloaded st).

Definition on_inactive (f : Element → Element) (st : State) : State :=
  if useA st
  then mkState (layerA st) (f (layerB st)) (overlay st) (useA st) (observed st) (preloaded st)
  else mkState (f (layerA st)) (layerB st) (overlay st) (useA st) (observed st) (preloaded st).

Definition flip (st : State) : State :=
  mkState (layerA st) (layerB st) (overlay st) (negb (useA st)) (observed st) (preloaded st).

Definition do_preload (url : string) (st : State) : State :=
  mkState (layerA st) (layerB st) (overlay st) (useA st) (observed st)
          (preload url (preloaded st)).

(** [if (overlay && tint) overlay.style.setProperty('--bg-tint', tint)] *)
Definition set_tint `{!Browser} (tint : option string) (st : State) : State :=
  match overlay st with
  | Some o =>
      if truthy tint
      then mkState (layerA st) (layerB st)
                   (Some (setProperty "--bg-tint" (or_empty tint) o))
                   (useA st) (observed st) (preloaded st)
      else st
  | None => st
  end.

(** The body of [entries.forEach(e => ...)] in the observer callback. *)
Definition on_entry `{!Browser} (st : State) (e : Entry) : State :=
  if negb (isIntersecting e) then st
  else
    let url := getAttribute (target e) "data-bg" in
    let tint := js_or (getAttribute (target e) "data-tint") None in
    if negb (truthy url) then st
    else
      let url := or_empty url in
      if includes (backgroundImage (active st)) url
      then set_tint tint st
      else
        let st := do_preload url st in
        let st := on_inactive (set_backgroundImage url) st in
        let st := on_inactive (classList_add "is-active") st in
        let st := on_active (classList_remove "is-active") st in
        let st := flip st in
        set_tint tint st.

(** The observer callback: the entries of one notification, in order. *)
Definition callback `{!Browser} (st : State) (entries : list Entry) : State :=
  foldl on_entry st entries.

End Global.

(** ** Variant B: pinned chapters ([chaptersBG]) *)

Module Chapters.

Record State := mkState {
  chapters : Element;        (* the .chapters block; carries dataset.active *)
  bgA : Element;
  bgB : Element;
  panels : list Element;     (* the .chap-content elements *)
  useA : bool;
  observed : list Element;
  preloaded : list string
}.

Definition active (st : State) : Element :=
  if useA st then bgA st else bgB st.

Definition inactive (st : State) : Element :=
  if useA st then bgB st else bgA st.

Definition on_active (f : Element → Element) (st : State) : State :=
  if useA st
  then mkState (chapters st) (f (bgA st)) (bgB st) (panels st) (useA st) (observed st) (preloaded st)
  else mkState (chapters st) (bgA st) (f (bgB st)) (panels st) (useA st) (observed st) (preloaded st).

Definition on_inactive (f : Element → Element) (st : State) : State :=
  if useA st
  then mkState (chapters st) (bgA st) (f (bgB st)) (panels st) (useA st) (observed st) (preloaded st)
  else mkState (chapters st) (f (bgA st)) (bgB st) (panels st) (useA st) (observed st) (preloaded st).

Definition flip (st : State) : State :=
  mkState (chapters st) (bgA st) (bgB st) (panels st) (negb (useA st))
          (observed st) (preloaded st).

Definition do_preload (url : string) (st : State) : State :=
  mkState (chapters st) (bgA st) (bgB st) (panels st) (useA st) (observed st)
          (preload url (preloaded st)).

(** [p.classList.toggle('is-active', p.getAttribute('data-idx') === String(idx))] *)
Definition toggle_panel (idx : string) (p : Element) : Element :=
  classList_toggle "is-active"
    (bool_decide (getAttribute p "data-idx" = Some idx)) p.

(** [setActivePanel(idx)]; [dataset.active] is the attribute data-active. *)
Definition setActivePanel (idx : string) (st : State) : State :=
  mkState (setAttribute "data-active" idx (chapters st)) (bgA st) (bgB st)
          (toggle_panel idx <$> panels st)
          (useA st) (observed st) (preloaded st).

(** The body of [entries.forEach(e => ...)] of [io2].  The test
    [if (!(active && inactive)) return] never fires: both layers exist
    by the time the observer is created. *)
Definition on_entry `{!Browser} (st : State) (e : Entry) : State :=
  if negb (isIntersecting e) then st
  else
    let idx := or_empty (js_or (getAttribute (target e) "data-idx") (Some "")) in
    let nextURL := getAttribute (target e) "data-bg" in
    if negb (truthy nextURL) then st
    else
      let nextURL := or_empty nextURL in
      if includes (backgroundImage (active st)) nextURL
      then setActivePanel idx st
      else
        let st := do_preload nextURL st in
        let st := on_inactive (set_backgroundImage nextURL) st in
        let st := on_inactive (classList_add "is-active") st in
        let st := on_active (classList_remove "is-active") st in
        let st := flip st in
        setActivePanel idx st.

Definition callback `{!Browser} (st : State) (entries : list Entry) : State :=
  foldl on_entry st entries.

End Chapters.

(** ** The document the script starts from *)

(** The [.global-bg] container with what [$('.g-bgA', root)],
    [$('.g-bgB', root)] and [$('.g-overlay', root)] find in it. *)
Record GlobalRoot := mkGlobalRoot {
  g_bgA : option Element;
  g_bgB : option Element;
  g_overlay : option Element
}.

(** Where [$('.chapters-sticky', chapters)] stands in the block, as far
    as [sticky.nextSibling] depends on it.  [last] says that no node, text
    included, follows the element in its parent. *)
Inductive Sticky :=
| NoSticky                      (* the query finds nothing *)
| StickyChild (last : bool)     (* a child of the block itself *)
| StickyInStage (last : bool)   (* a child of the block's .chapters-stage *)
| StickyNested (last : bool).   (* a child of another element of the block *)

(** The [.chapters] block: the element itself, its two layers when the
    page has them, its [.chap-content] panels and its [.chapter] markers,
    both in document order, and the place of its [.chapters-sticky].  The
    [.chapters-stage], to which new layers are appended, is left out. *)
Record ChaptersRoot := mkChaptersRoot {
  c_root : Element;
  c_bgA : option Element;
  c_bgB : option Element;
  c_panels : list Element;
  c_markers : list Element;
  c_sticky : Sticky
}.

(** [stage.appendChild(layer)]: a sticky container that was the last child
    of the stage is now followed by the layer. *)
Definition layer_appended (s : Sticky) : Sticky :=
  match s with
  | StickyInStage _ => StickyInStage false
  | _ => s
  end.

(** [bg_chapter] is [$$('.bg-chapter')]: all section markers in document
    order, those of step 0c of [bootstrap] included. *)
Record Document := mkDocument {
  global_bg : option GlobalRoot;
  bg_chapter : list Element;
  chapters_block : option ChaptersRoot
}.

(** Step 0b of [bootstrap]: a missing [.global-bg] is created with its two
    layers and its overlay. *)
Definition bootstrap_global (g : option GlobalRoot) : option GlobalRoot :=
  match g with
  | Some r => Some r
  | None =>
      Some (mkGlobalRoot (Some (el "g-bg g-bgA is-active"))
                         (Some (el "g-bg g-bgB"))
                         (Some (el "g-overlay")))
  end.

(** Step 0d of [bootstrap]: a [.chapters] block with neither layer gets both. *)
Definition bootstrap_chapters (c : ChaptersRoot) : ChaptersRoot :=
  match c_bgA c, c_bgB c with
  | None, None =>
      mkChaptersRoot (c_root c)
                     (Some (el "chapters-bg chapters-bgA is-active"))
                     (Some (el "chapters-bg chapters-bgB"))
                     (c_panels c) (c_markers c)
                     (layer_appended (c_sticky c))
  | _, _ => c
  end.

(** [bootstrap], steps 0b and 0d.  Step 0a only adds the class reveal to
    cards; the markers step 0c adds to sections are part of [bg_chapter]. *)
Definition bootstrap (d : Document) : Document :=
  mkDocument (bootstrap_global (global_bg d)) (bg_chapter d)
             (bootstrap_chapters <$> chapters_block d).

(** ** Set-up of the two variants *)

(** [initFirstBG]: the first marker's image is painted on [layerA] and
    fetched, when that marker has one. *)
Definition initFirstBG `{!Browser} (markers : list Element) (st : Global.State)
  : Global.State :=
  match markers with
  | firstMarker :: _ =>
      let url := getAttribute firstMarker "data-bg" in
      if truthy url
      then Global.do_preload (or_empty url)
             (Global.mkState
                (set_backgroundImage (or_empty url) (Global.layerA st))
                (Global.layerB st) (Global.overlay st) (Global.useA st)
                (Global.observed st) (Global.preloaded st))
      else st
  | [] => st
  end.

(** [if (!m.style.height) m.style.height = '120px'] *)
Definition healthy_hitbox (m : Element) : Element :=
  if truthy_string (style_get m "height") then m else style_set "height" "120px" m.

(** [globalBG] up to the creation of its observer: [None] when it returns
    early, otherwise the closure with every marker observed. *)
Definition globalBG `{!Browser} (d : Document) : option Global.State :=
  match global_bg d with
  | None => None
  | Some globalRoot =>
      match bg_chapter d with
      | [] => None
      | globalMarkers =>
          match g_bgA globalRoot, g_bgB globalRoot with
          | Some layerA, Some layerB =>
              let st := Global.mkState layerA layerB (g_overlay globalRoot) true [] [] in
              let st := initFirstBG globalMarkers st in
              Some (Global.mkState (Global.layerA st) (Global.layerB st)
                      (Global.overlay st) (Global.useA st)
                      (healthy_hitbox <$> globalMarkers) (Global.preloaded st))
          | _, _ => None
          end
      end
  end.

(** Lines "Ensure background layers exist" of [chaptersBG]: a missing
    layer is created and appended to the stage. *)
Definition ensure_layers (c : ChaptersRoot) : ChaptersRoot :=
  mkChaptersRoot (c_root c)
    (Some (default (el "chapters-bg chapters-bgA is-active") (c_bgA c)))
    (Some (default (el "chapters-bg chapters-bgB") (c_bgB c)))
    (c_panels c) (c_markers c)
    (match c_bgA c, c_bgB c with
     | Some _, Some _ => c_sticky c
     | _, _ => layer_appended (c_sticky c)
     end).

(** [afterSticky], the reference node of [chapters.insertBefore]. *)
Inductive Reference :=
| RefNull          (* [null]: the marker is appended *)
| RefChild         (* a child node of the block *)
| RefElsewhere.    (* a node whose parent is another element *)

(** Whether [chapters.insertBefore(marker, ref)] raises NotFoundError: it
    does when [ref] is a node that is not a child of [chapters]. *)
Definition not_a_child (r : Reference) : bool :=
  match r with
  | RefElsewhere => true
  | _ => false
  end.

(** [sticky ? sticky.nextSibling : null] *)
Definition afterSticky (c : ChaptersRoot) : Reference :=
  match c_sticky c with
  | NoSticky => RefNull
  | StickyChild last => if last then RefNull else RefChild
  | StickyInStage last | StickyNested last => if last then RefNull else RefElsewhere
  end.

(** [String(i + 1)] *)
Definition idx_of (i : nat) : string := pretty (i + 1).

(** The panel after [if (!p.getAttribute('data-idx')) p.setAttribute('data-idx', idx)]. *)
Definition number_panel (i : nat) (p : Element) : Element :=
  if truthy (getAttribute p "data-idx") then p
  else setAttribute "data-idx" (idx_of i) p.

(** The marker synthesized for panel [p] at position [i]. *)
Definition synthesize_marker (i : nat) (p : Element) : Element :=
  let fromPanel := getAttribute p "data-bg" in
  let fallback := if bool_decide (i `mod` 2 = 0)
                  then "background-photos/black.jpeg"
                  else "background-photos/white.jpeg" in
  style_set "height" "140vh"
    (setAttribute "data-bg" (or_empty (js_or fromPanel (Some fallback)))
       (setAttribute "data-idx" (idx_of i) (el "chapter"))).

(** How [chaptersBG] ends. *)
Inductive Outcome :=
| Started (st : Chapters.State)   (* the observer is created: its closure *)
| Returned                        (* an early return *)
| Threw (left : ChaptersRoot).    (* an exception: the block as it is left *)

(** The block when [chapters.insertBefore(marker, afterSticky)] raises
    NotFoundError for the first panel: that panel has been numbered, its
    marker is not in the document. *)
Definition left_at_first_marker (c : ChaptersRoot) : ChaptersRoot :=
  mkChaptersRoot (c_root c) (c_bgA c) (c_bgB c)
    (match c_panels c with
     | p :: ps => number_panel 0 p :: ps
     | [] => []
     end)
    (c_markers c) (c_sticky c).

(** [chaptersBG] after [ensure_layers]: marker synthesis, the initial
    panel and the observation of every live marker.  [insertBefore] throws
    when its reference node is not a child of the block; nothing in the
    script catches the exception. *)
Definition chaptersBG (c : ChaptersRoot) : Outcome :=
  let c := ensure_layers c in
  let synth := bool_decide (c_markers c = []) && bool_decide (c_panels c ≠ []) in
  if synth && not_a_child (afterSticky c)
  then Threw (left_at_first_marker c)
  else
    let panels := if synth then imap number_panel (c_panels c) else c_panels c in
    let liveMarkers := if synth then imap synthesize_marker (c_panels c) else c_markers c in
    match liveMarkers with
    | [] => Returned
    | _ =>
        let first := or_empty (js_or (getAttribute (c_root c) "data-active") (Some "1")) in
        let st := Chapters.mkState (setAttribute "data-active" first (c_root c))
                    (default (el "chapters-bg chapters-bgA is-active") (c_bgA c))
                    (default (el "chapters-bg chapters-bgB") (c_bgB c))
                    panels true liveMarkers [] in
        Started (Chapters.setActivePanel first st)
    end.

(** The closure of the pinned variant, when its observer was created. *)
Definition chapters_closure (o : Outcome) : option Chapters.State :=
  match o with
  | Started st => Some st
  | _ => None
  end.

(** The block as [chaptersBG] leaves it in the document. *)
Definition chapters_left (c : ChaptersRoot) : ChaptersRoot :=
  match chaptersBG c with
  | Threw c' => c'
  | _ => ensure_layers c
  end.

(** ** The engine *)

(** What exists once [scrollDrivenBackground] has run: the document and,
    for each variant that created its observer, the observer's closure.
    An element captured by a closure is read through that closure.  An
    exception in [chaptersBG] ends the script after [globalBG] has run. *)
Record Engine := mkEngine {
  eng_doc : Document;
  eng_global : option Global.State;
  eng_chapters : option Chapters.State
}.

Definition scrollDrivenBackground `{!Browser} (prefersReduced : bool) (d : Document)
  : Engine :=
  if prefersReduced then mkEngine d None None
  else
    mkEngine (mkDocument (global_bg d) (bg_chapter d) (chapters_left <$> chapters_block d))
             (globalBG d)
             (chapters_block d ≫= λ c, chapters_closure (chaptersBG c)).

(** One notification of an IntersectionObserver: the observer it belongs
    to and the entries handed to its callback. *)
Inductive Notification :=
| ToGlobal (entries : list Entry)
| ToChapters (entries : list Entry).

(** Only an observer that was created can run its callback. *)
Definition deliver `{!Browser} (eng : Engine) (n : Notification) : Engine :=
  match n with
  | ToGlobal entries =>
      mkEngine (eng_doc eng)
               ((λ st, Global.callback st entries) <$> eng_global eng)
               (eng_chapters eng)
  | ToChapters entries =>
      mkEngine (eng_doc eng) (eng_global eng)
               ((λ st, Chapters.callback st entries) <$> eng_chapters eng)
  end.

Definition run `{!Browser} (eng : Engine) (ns : list Notification) : Engine :=
  foldl deliver eng ns.

(** Everything the engine observes, and every fetch it started. *)
Definition engine_observed (eng : Engine) : list Element :=
  from_option Global.observed [] (eng_global eng) ++
  from_option Chapters.observed [] (eng_chapters eng).

Definition engine_preloaded (eng : Engine) : list string :=
  from_option Global.preloaded [] (eng_global eng) ++
  from_option Chapters.preloaded [] (eng_chapters eng).

(** ** What is observed of a closure *)

(** The value of the custom property [--bg-tint] on the overlay, if any. *)
Definition overlay_tint (st : Global.State) : option string :=
  Global.overlay st ≫= λ o, style o !! "--bg-tint".

(** [chapters.dataset.active] *)
Definition dataset_active (st : Chapters.State) : option string :=
  getAttribute (Chapters.chapters st) "data-active".

(** Which panels carry the class is-active, in panel order. *)
Definition current_flags (st : Chapters.State) : list bool :=
  is_active <$> Chapters.panels st.

(** How many panels carry the class is-active. *)
Definition current_count (st : Chapters.State) : nat :=
  length (filter (λ p, is_active p = true) (Chapters.panels st)).

(** How many of the panels have [idx] as their data-idx attribute. *)
Definition panels_indexed (idx : string) (ps : list Element) : nat :=
  length (filter (λ p, getAttribute p "data-idx" = Some idx) ps).

(** [e.target.getAttribute('data-idx') || ''] *)
Definition marker_idx (m : Element) : string :=
  or_empty (js_or (getAttribute m "data-idx") (Some "")).

(** An entry for a marker that entered the trigger band. *)
Definition entered (m : Element) : Entry := mkEntry true m.

(** ** Predicates of the statements *)

(** No swap happened between two states of a closure: same layers, same
    [useA], same fetches. *)
Definition global_same_layers (st st' : Global.State) : Prop :=
  Global.layerA st' = Global.layerA st ∧
  Global.layerB st' = Global.layerB st ∧
  Global.useA st' = Global.useA st ∧
  Global.preloaded st' = Global.preloaded st.

Definition chapters_same_layers (st st' : Chapters.State) : Prop :=
  Chapters.bgA st' = Chapters.bgA st ∧
  Chapters.bgB st' = Chapters.bgB st ∧
  Chapters.useA st' = Chapters.useA st ∧
  Chapters.preloaded st' = Chapters.preloaded st.

(** Every entry of a run carries the same data-bg attribute [u]. *)
Definition same_image (u : option string) (es : list Entry) : Prop :=
  Forall (λ e, getAttribute (target e) "data-bg" = u) es.

(** Exactly one of two layers carries the class is-active. *)
Definition exactly_one_active (a b : Element) : Prop :=
  xorb (is_active a) (is_active b) = true.




(** Layer markup of the author's own is classed as [bootstrap] classes the
    layers it creates: the A layer with is-active, the B layer without. *)
Definition authored_layers_seeded (d : Document) : Prop :=
  (∀ r, global_bg d = Some r →
        (∀ a, g_bgA r = Some a → is_active a = true) ∧
        (∀ b, g_bgB r = Some b → is_active b = false)) ∧
  (∀ c, chapters_block d = Some c →
        (∀ a, c_bgA c = Some a → is_active a = true) ∧
        (∀ b, c_bgB c = Some b → is_active b = false)).

(** The state of a block whose markers were synthesized from [n] panels
    without an index of their own: panel [i] is indexed [String(i + 1)],
    and every observed marker has an image and the index of one of them. *)
Definition synthesized (n : nat) (st : Chapters.State) : Prop :=
  (λ p, getAttribute p "data-idx") <$> Chapters.panels st =
    (λ i, Some (idx_of i)) <$> seq 0 n ∧
  Forall (λ m, truthy (getAttribute m "data-bg") = true ∧
               ∃ i, i < n ∧ getAttribute m "data-idx" = Some (idx_of i))
         (Chapters.observed st).

(** ** Pages used in the scenarios *)

(** An element as the page author wrote it: class attribute and data
    attributes, no inline style.  The pinned blocks of the scenarios have
    their sticky container as a child, followed by other nodes. *)
Definition html (cls : string) (attrs : list (string * string)) : Element :=
  {| classList := String.words cls; attributes := list_to_map attrs; style := ∅ |}.

(** *** A page with two section markers and no layer markup of its own *)

Definition black_marker : Element :=
  html "bg-chapter" [("data-bg", "black.jpeg")].

Definition white_marker : Element :=
  html "bg-chapter" [("data-bg", "white.jpeg"); ("data-tint", "rgba(1,2,3,.1)")].

Definition two_section_page : Document :=
  mkDocument None [black_marker; white_marker] None.

(** The closure [globalBG] builds on it: the first marker's image is
    painted on layer A and fetched, both markers are observed. *)
Definition global_start : Global.State :=
  Global.mkState
    (style_set "background-image" (serialized_url "black.jpeg") (el "g-bg g-bgA is-active"))
    (el "g-bg g-bgB")
    (Some (el "g-overlay"))
    true
    [healthy_hitbox black_marker; healthy_hitbox white_marker]
    ["black.jpeg"].

(** The second marker, as observed, enters the trigger band. *)
Definition white_entered : Entry := entered (healthy_hitbox white_marker).

(** A marker with the same image and an empty tint attribute. *)
Definition untinted_entered : Entry :=
  entered (html "bg-chapter" [("data-bg", "white.jpeg"); ("data-tint", "")]).

(** After the white marker: the same image twice more, once untinted. *)
Definition white_again : list Entry := [untinted_entered; white_entered].

(** A spacer: a marker with an empty image attribute. *)
Definition spacer_entered : Entry :=
  entered (html "bg-chapter" [("data-bg", ""); ("data-tint", "red"); ("data-idx", "3")]).

(** *** A page whose second image URL is a proper substring of the first *)

Definition photos_black_marker : Element :=
  html "bg-chapter" [("data-bg", "background-photos/black.jpeg")].

Definition other_black_marker : Element :=
  html "bg-chapter" [("data-bg", "black.jpeg")].

Definition substring_page : Document :=
  mkDocument None [photos_black_marker; other_black_marker] None.

Definition other_black_entered : Entry := entered (healthy_hitbox other_black_marker).

(** The same two images on the markers of a pinned chapters block. *)
Definition substring_chapters : ChaptersRoot :=
  mkChaptersRoot (el "chapters") None None
    [html "chap-content" [("data-idx", "1")]; html "chap-content" [("data-idx", "2")]]
    [html "chapter" [("data-idx", "1"); ("data-bg", "background-photos/black.jpeg")];
     html "chapter" [("data-idx", "2"); ("data-bg", "black.jpeg")]]
    (StickyChild false).

(** *** A pinned chapters block whose two segments share one image *)

Definition panel1 : Element := html "chap-content" [("data-idx", "1")].
Definition panel2 : Element := html "chap-content" [("data-idx", "2")].
Definition segment1 : Element := html "chapter" [("data-idx", "1"); ("data-bg", "a.jpg")].
Definition segment2 : Element := html "chapter" [("data-idx", "2"); ("data-bg", "a.jpg")].

Definition shared_image_chapters : ChaptersRoot :=
  mkChaptersRoot (el "chapters") None None [panel1; panel2] [segment1; segment2]
    (StickyChild false).

(** The closure [chaptersBG] builds on it: panel 1 is current. *)
Definition chapters_start : Chapters.State :=
  Chapters.mkState
    (setAttribute "data-active" "1" (el "chapters"))
    (el "chapters-bg chapters-bgA is-active")
    (el "chapters-bg chapters-bgB")
    [classList_add "is-active" panel1; panel2]
    true
    [segment1; segment2]
    [].

(** *** A pinned block one of whose markers has an image and no index *)

Definition unindexed_segment : Element := html "chapter" [("data-bg", "b.jpg")].

Definition unindexed_chapters : ChaptersRoot :=
  mkChaptersRoot (el "chapters") None None [panel1; panel2] [segment1; unindexed_segment]
    (StickyChild false).

Definition unindexed_start : Chapters.State :=
  Chapters.mkState
    (setAttribute "data-active" "1" (el "chapters"))
    (el "chapters-bg chapters-bgA is-active")
    (el "chapters-bg chapters-bgB")
    [classList_add "is-active" panel1; panel2]
    true
    [segment1; unindexed_segment]
    [].

(** *** A pinned block of three bare panels and no marker *)

Definition bare_panels : list Element :=
  [el "chap-content"; el "chap-content"; el "chap-content"].

Definition bare_chapters : ChaptersRoot :=
  mkChaptersRoot (el "chapters") None None bare_panels [] (StickyChild false).

Definition bare_start : Chapters.State :=
  Chapters.setActivePanel "1"
    (Chapters.mkState
       (setAttribute "data-active" "1" (el "chapters"))
       (el "chapters-bg chapters-bgA is-active")
       (el "chapters-bg chapters-bgB")
       (imap number_panel bare_panels)
       true
       (imap synthesize_marker bare_panels)
       []).

(** The third, then the second synthesized marker enter. *)
Definition bare_entries : list Entry :=
  [entered (synthesize_marker 2 (el "chap-content"));
   entered (synthesize_marker 1 (el "chap-content"))].

(** *** A page with section markers and a pinned block *)

Definition both_variants_page : Document :=
  mkDocument None [black_marker; white_marker] (Some shared_image_chapters).


(** ** Predicates of the further properties *)

(** The image on [e] is [img0], or it is what the browser kept of
    [`url('${u}')`] for a URL [u] of the log. *)
Definition painted_or_initial `{!Browser} (img0 : string) (log : list string)
    (e : Element) : Prop :=
  backgroundImage e = img0 ∨ ∃ u, u ∈ log ∧ css_image u = Some (backgroundImage e).

(** The layer element a value of [useA] selects as active. *)
Definition global_layer (a : bool) (st : Global.State) : Element :=
  if a then Global.layerA st else Global.layerB st.

Definition chapters_layer (a : bool) (st : Chapters.State) : Element :=
  if a then Chapters.bgA st else Chapters.bgB st.

(** What [chaptersBG] takes as the first active panel:
    [chapters.dataset.active || '1']. *)
Definition first_panel (c : ChaptersRoot) : string :=
  or_empty (js_or (getAttribute (c_root c) "data-active") (Some "1")).

(** The default image of the marker synthesized at position [i]. *)
Definition fallback_image (i : nat) : string :=
  if bool_decide (i `mod` 2 = 0)
  then "background-photos/black.jpeg"
  else "background-photos/white.jpeg".

(** The black marker entering again after the white one. *)
Definition black_entered : Entry := entered (healthy_hitbox black_marker).


(** Entries for markers that left the trigger band. *)
Definition left_entries : list Entry :=
  [mkEntry false (healthy_hitbox white_marker); mkEntry false segment2].

(** Between [st] and [st'] every image written on a layer was fetched:
    the log grew by some [k], and each layer shows what it showed or what
    the browser kept of an assignment for a URL of [k]. *)
Definition global_paints_logged `{!Browser} (st st' : Global.State) : Prop :=
  ∃ k, Global.preloaded st' = (Global.preloaded st ++ k)%list ∧
       painted_or_initial (backgroundImage (Global.layerA st)) k (Global.layerA st') ∧
       painted_or_initial (backgroundImage (Global.layerB st)) k (Global.layerB st').

Definition chapters_paints_logged `{!Browser} (st st' : Chapters.State) : Prop :=
  ∃ k, Chapters.preloaded st' = (Chapters.preloaded st ++ k)%list ∧
       painted_or_initial (backgroundImage (Chapters.bgA st)) k (Chapters.bgA st') ∧
       painted_or_initial (backgroundImage (Chapters.bgB st)) k (Chapters.bgB st').

(** ** Header theme ([headerThemeAuto]) *)

Module HeaderTheme.

(** The observer callback on the hero: only [entries[0]] is read. *)
Definition callback (header : Element) (entries : list Entry) : Element :=
  match entries with
  | [] => header
  | e :: _ =>
      if isIntersecting e
      then classList_remove "theme-solid" (classList_add "theme-light" header)
      else classList_add "theme-solid" (classList_remove "theme-light" header)
  end.

(** [headerThemeAuto] up to [io.observe(hero)], given what the queries
    [.header[data-auto-theme]] and [.hero] found: the header as the
    function leaves it when it creates its observer, [None] when it returns
    early.  [header.dataset.themeObserver] is the attribute
    data-theme-observer. *)
Definition headerThemeAuto (header hero : option Element) : option Element :=
  match header, hero with
  | Some h, Some _ =>
      if truthy (getAttribute h "data-theme-observer") then None
      else Some (setAttribute "data-theme-observer" "1" h)
  | _, _ => None
  end.

End HeaderTheme.

(** A header written with one theme class, and a hero. *)
Definition solid_header : Element :=
  html "header theme-solid" [("data-auto-theme", "")].

Definition hero_section : Element := html "hero parallax" [].

(** ** Reveal on scroll ([revealOnScroll]) and step 0a of [bootstrap] *)

(** A compound class selector such as [.feature.card], as its classes. *)
Definition matches (sel : list string) (e : Element) : bool :=
  forallb (contains e) sel.

(** [$$(sel)] over the elements of the page, in document order. *)
Definition querySelectorAll (sel : list string) (page : list Element) : list Element :=
  filter (λ e, matches sel e = true) page.

(** The selectors of step 0a. *)
Definition candidates : list (list string) :=
  [["feature"; "card"]; ["about-grid"; "card"]; ["project"; "card"];
   ["card"; "blog-card"]; ["newsletter"; "card"]; ["contact"; "card"]].

(** [if (!n.classList.contains('reveal')) n.classList.add('reveal')] *)
Definition add_reveal (n : Element) : Element :=
  if contains n "reveal" then n else classList_add "reveal" n.

(** Step 0a for one selector: every element it matches gets the class. *)
Definition reveal_matching (page : list Element) (sel : list string) : list Element :=
  (λ n, if matches sel n then add_reveal n else n) <$> page.

(** Step 0a of [bootstrap] on the elements of the page. *)
Definition bootstrap_reveal (page : list Element) : list Element :=
  foldl reveal_matching page candidates.

(** Whether one of the selectors of step 0a matches. *)
Definition is_candidate (n : Element) : bool :=
  existsb (λ sel, matches sel n) candidates.

Module Reveal.

(** An entry of the reveal observer; its target is given by its position
    among the elements [$$('.reveal')] found. *)
Record Entry := mkEntry {
  isIntersecting : bool;
  target : nat
}.

(** The [.reveal] elements, each with whether [io] still observes it. *)
Abbreviation State := (list (Element * bool)).

(** [e.target.classList.add('in-view'); io.unobserve(e.target)] *)
Definition reveal (p : Element * bool) : Element * bool :=
  (classList_add "in-view" p.1, false).

Definition on_entry (st : State) (e : Entry) : State :=
  if isIntersecting e then alter reveal (target e) st else st.

Definition callback (st : State) (entries : list Entry) : State :=
  foldl on_entry st entries.

(** [revealOnScroll]: nothing without a [.reveal] element, else every
    one of them observed. *)
Definition revealOnScroll (page : list Element) : option State :=
  match querySelectorAll ["reveal"] page with
  | [] => None
  | els => Some ((λ e, (e, true)) <$> els)
  end.

(** An intersecting entry for the element at position [i]. *)
Definition hits (i : nat) (e : Entry) : bool :=
  isIntersecting e && bool_decide (target e = i).

End Reveal.

(** A page with two cards, a plain paragraph and a card already revealed. *)
Definition cards_page : list Element :=
  [html "feature card" []; html "lead" []; html "card blog-card reveal in-view" []].

(** ** Parallax hero ([parallaxHero]): the frame throttle *)

Module Parallax.

Section Throttle.

(** What [apply] reads when it runs: [window.scrollY] and
    [window.innerHeight].  It computes the transforms of the image and of
    the copy from them in floating point; the model keeps the view they
    were computed from instead of the transforms. *)
Variable View : Type.

Record State := mkState {
  view : View;            (* the window now *)
  ticking : bool;         (* the variable [ticking] *)
  frames : nat;           (* callbacks queued by requestAnimationFrame *)
  shown : option View     (* the view the last [apply] painted *)
}.

Inductive Event :=
| Scroll (v : View)       (* the window scrolled to [v]; [onScroll] runs *)
| Resize (v : View)       (* the window resized to [v]; [apply] runs *)
| Frame.                  (* the browser runs the queued frame callbacks *)

Definition apply (st : State) : State :=
  mkState (view st) false (frames st) (Some (view st)).

Definition onScroll (st : State) : State :=
  if ticking st then st
  else mkState (view st) true (S (frames st)) (shown st).

Definition moved (v : View) (st : State) : State :=
  mkState v (ticking st) (frames st) (shown st).

Definition step (st : State) (ev : Event) : State :=
  match ev with
  | Scroll v => onScroll (moved v st)
  | Resize v => apply (moved v st)
  | Frame =>
      let st' := Nat.iter (frames st) apply st in
      mkState (view st') (ticking st') 0 (shown st')
  end.

(** [parallaxHero] up to its listeners: nothing under reduced motion or
    without a [.hero.parallax]; otherwise [apply] has run once. *)
Definition parallaxHero (prefersReduced : bool) (hero : option Element) (v0 : View)
  : option State :=
  if prefersReduced then None
  else match hero with
       | None => None
       | Some _ => Some (apply (mkState v0 false 0 None))
       end.

Definition is_resize (ev : Event) : bool :=
  match ev with Resize _ => true | _ => false end.

(** How many of the events are resizes. *)
Definition resizes (evs : list Event) : nat :=
  length (filter (λ ev, is_resize ev = true) evs).

(** A frame is queued while [ticking] is set, and the picture is up to
    date unless a frame is queued. *)
Definition ok (st : State) : Prop :=
  (ticking st = true → (1 ≤ frames st)%nat) ∧
  (shown st = Some (view st) ∨ (1 ≤ frames st)%nat).

End Throttle.

Arguments ok {View}.
Arguments mkState {View}.
Arguments view {View}.
Arguments ticking {View}.
Arguments frames {View}.
Arguments shown {View}.
Arguments Scroll {View}.
Arguments Resize {View}.
Arguments Frame {View}.
Arguments apply {View}.
Arguments onScroll {View}.
Arguments moved {View}.
Arguments step {View}.
Arguments parallaxHero {View}.
Arguments is_resize {View}.
Arguments resizes {View}.

End Parallax.

(** Scroll positions as numbers of pixels: a page scrolled twice within
    one frame, then once more. *)
Definition parallax_start : Parallax.State nat :=
  Parallax.mkState 0%nat false 0%nat (Some 0%nat).

Definition scrolled_twice_a_frame : list (Parallax.Event nat) :=
  [Parallax.Scroll 10%nat; Parallax.Scroll 20%nat; Parallax.Frame; Parallax.Scroll 30%nat].

(** A resize between two scrolls of one frame. *)
Definition resized_between_scrolls : list (Parallax.Event nat) :=
  [Parallax.Scroll 10%nat; Parallax.Resize 10%nat; Parallax.Scroll 20%nat].

(** ** Utilities *)

(** [clamp(v, min, max) = Math.min(max, Math.max(min, v))].  [Math.min] and
    [Math.max] compare and return one of their arguments, so on numbers
    other than NaN they are the minimum and maximum of the rationals the
    numbers denote. *)
Definition clamp (v lo hi : Q) : Q := Qmin hi (Qmax lo v).

(** ** The tree under a section, for step 0c of [bootstrap] *)

(** A node of the document: an element with its child nodes, or a node
    that is no element (text, comment). *)
Unset Elimination Schemes.
Inductive Node :=
| Elem (e : Element) (children : list Node)
| Other (text : string).
Set Elimination Schemes.

Definition is_elem (n : Node) : bool :=
  match n with Elem _ _ => true | Other _ => false end.

(** The element children of a node list, in order. *)
Definition element_children (kids : list Node) : list Node :=
  filter (λ n, is_elem n = true) kids.

(** A node and the elements below it, in document order. *)
Fixpoint descendants (n : Node) : list Element :=
  match n with
  | Elem e kids => e :: flat_map descendants kids
  | Other _ => []
  end.

(** [$(cls, root)] for a class selector: the first element below [root],
    [root] itself excluded, that has the class. *)
Definition querySelector (cls : string) (kids : list Node) : option Element :=
  head (filter (λ e, contains e cls = true) (flat_map descendants kids)).

(** [parent.firstElementChild], as a position among the child nodes. *)
Fixpoint firstElementChild (kids : list Node) : option nat :=
  match kids with
  | [] => None
  | Elem _ _ :: _ => Some 0%nat
  | Other _ :: ks => S <$> firstElementChild ks
  end.

(** [parent.insertBefore(new, ref)], [ref] being the child at position [i]. *)
Definition insertBefore (new : Node) (i : nat) (kids : list Node) : list Node :=
  take i kids ++ new :: drop i kids.

Definition appendChild (new : Node) (kids : list Node) : list Node :=
  kids ++ [new].

(** [insertMarkerAtTop(parent, marker)], on the child nodes of a parent
    that is not null. *)
Definition insertMarkerAtTop (kids : list Node) (marker : Node) : list Node :=
  match firstElementChild kids with
  | Some i => insertBefore marker i kids
  | None => appendChild marker kids
  end.

(** A row of the table [mapping]. *)
Record Row := mkRow {
  row_idx : string;
  row_sel : string;
  row_bg : string;
  row_tint : string
}.

Definition mapping : list Row :=
  [mkRow "1" ".hero" "background-photos/black.jpeg" "rgba(59,130,246,.10)";
   mkRow "2" "#features" "background-photos/white.jpeg" "rgba(139,92,246,.10)";
   mkRow "3" "#about" "background-photos/black.jpeg" "rgba(16,185,129,.10)";
   mkRow "4" "#projects" "background-photos/white.jpeg" "rgba(234,179,8,.10)";
   mkRow "5" "#blog" "background-photos/black.jpeg" "rgba(99,102,241,.10)"].

(** The marker step 0c creates for a row. *)
Definition row_marker (r : Row) : Element :=
  setAttribute "data-tint" (row_tint r)
    (setAttribute "data-bg" (row_bg r)
       (setAttribute "data-idx" (row_idx r) (el "bg-chapter"))).

(** The body of [mapping.forEach] in step 0c, given what [$(sel)] found:
    [None] for no such section, else the section's child nodes. *)
Definition ensure_marker (r : Row) (target : option (list Node)) : option (list Node) :=
  match target with
  | None => None
  | Some kids =>
      match querySelector "bg-chapter" kids with
      | Some _ => Some kids
      | None => Some (insertMarkerAtTop kids (Elem (row_marker r) []))
      end
  end.

(** A hero section as written: text, an image wrapper, a heading. *)
Definition hero_children : list Node :=
  [Other " "; Elem (html "hero-media" []) [Elem (html "" []) []]; Other " ";
   Elem (html "hero-copy" []) []].

(** ** The callbacks as first written (main.js before the rewrite) *)

Module Earlier.

(** The observer callback of the global variant: as [Global.on_entry]
    without the call of [preload]. *)
Definition global_on_entry `{!Browser} (st : Global.State) (e : Entry) : Global.State :=
  if negb (isIntersecting e) then st
  else
    let url := getAttribute (target e) "data-bg" in
    let tint := js_or (getAttribute (target e) "data-tint") None in
    if negb (truthy url) then st
    else
      let url := or_empty url in
      if includes (backgroundImage (Global.active st)) url
      then Global.set_tint tint st
      else
        let st := Global.on_inactive (set_backgroundImage url) st in
        let st := Global.on_inactive (classList_add "is-active") st in
        let st := Global.on_active (classList_remove "is-active") st in
        let st := Global.flip st in
        Global.set_tint tint st.

(** [chapters.dataset.active = idx] *)
Definition set_dataset_active (idx : string) (st : Chapters.State) : Chapters.State :=
  Chapters.mkState (setAttribute "data-active" idx (Chapters.chapters st))
    (Chapters.bgA st) (Chapters.bgB st) (Chapters.panels st) (Chapters.useA st)
    (Chapters.observed st) (Chapters.preloaded st).

(** The observer callback of the pinned variant: an image already shown
    returns at once, a swap ends with [chapters.dataset.active = idx]. *)
Definition chapters_on_entry `{!Browser} (st : Chapters.State) (e : Entry)
  : Chapters.State :=
  if negb (isIntersecting e) then st
  else
    let idx := or_empty (js_or (getAttribute (target e) "data-idx") (Some "")) in
    let nextURL := getAttribute (target e) "data-bg" in
    if negb (truthy nextURL) then st
    else
      let nextURL := or_empty nextURL in
      if includes (backgroundImage (Chapters.active st)) nextURL then st
      else
        let st := Chapters.on_inactive (set_backgroundImage nextURL) st in
        let st := Chapters.on_inactive (classList_add "is-active") st in
        let st := Chapters.on_active (classList_remove "is-active") st in
        let st := Chapters.flip st in
        set_dataset_active idx st.

End Earlier.

(** The closure with another log of fetches. *)
Definition with_preloaded (log : list string) (st : Global.State) : Global.State :=
  Global.mkState (Global.layerA st) (Global.layerB st) (Global.overlay st)
    (Global.useA st) (Global.observed st) log.

(** Two closures of the pinned variant with the same layers and [useA]. *)
Definition same_chapter_layers (st st' : Chapters.State) : Prop :=
  Chapters.bgA st' = Chapters.bgA st ∧
  Chapters.bgB st' = Chapters.bgB st ∧
  Chapters.useA st' = Chapters.useA st.

(** ** Predicates and pages of the statements on URLs and layers *)

(** The browser keeps [`url('${u}')`] and reads it back with [u] in it. *)
Definition painted_back `{!Browser} (u : string) : Prop :=
  ∃ v, css_image u = Some v ∧ includes v u = true.

(** *** A page whose second image is the first without its version *)

Definition versioned_marker : Element :=
  html "bg-chapter" [("data-bg", "black.jpeg?v=2")].

Definition unversioned_marker : Element :=
  html "bg-chapter" [("data-bg", "black.jpeg"); ("data-tint", "rgba(1,2,3,.1)")].

Definition versioned_page : Document :=
  mkDocument None [versioned_marker; unversioned_marker] None.

(** The closure [globalBG] builds on it. *)
Definition versioned_start : Global.State :=
  Global.mkState
    (style_set "background-image" (serialized_url "black.jpeg?v=2") (el "g-bg g-bgA is-active"))
    (el "g-bg g-bgB")
    (Some (el "g-overlay"))
    true
    [healthy_hitbox versioned_marker; healthy_hitbox unversioned_marker]
    ["black.jpeg?v=2"].

Definition unversioned_entered : Entry := entered (healthy_hitbox unversioned_marker).

(** *** Markers whose image path is written with a backslash *)

Definition backslash_marker : Element :=
  html "bg-chapter" [("data-bg", "images\hero.jpg"); ("data-tint", "rgba(1,2,3,.1)")].

Definition backslash_entered : Entry := entered (healthy_hitbox backslash_marker).

Definition backslash_segment1 : Element :=
  html "chapter" [("data-idx", "1"); ("data-bg", "images\hero.jpg")].

Definition backslash_segment2 : Element :=
  html "chapter" [("data-idx", "2"); ("data-bg", "images\hero.jpg")].

Definition backslash_chapters : ChaptersRoot :=
  mkChaptersRoot (el "chapters") None None [panel1; panel2]
    [backslash_segment1; backslash_segment2] (StickyChild false).

(** *** A marker whose image name has an apostrophe *)

Definition apostrophe_marker : Element :=
  html "bg-chapter" [("data-bg", "it's.jpg")].

Definition apostrophe_entered : Entry := entered (healthy_hitbox apostrophe_marker).

(** *** A page whose author wrote the layers without the class is-active *)


(** *** A page whose author wrote the layers as [bootstrap] would *)


(** *** A pinned block of bare panels whose sticky container ends its stage *)

Definition staged_chapters : ChaptersRoot :=
  mkChaptersRoot (el "chapters") None None bare_panels [] (StickyInStage true).

(** * Properties *)

(** Statements that name no browser are evaluated with [fragment_only]. *)
#[local] Existing Instance fragment_only | 100.

(** Unfold the accessors and writes of a closure given by its fields. *)
Ltac global_fields :=
  cbv [Global.active Global.inactive Global.flip Global.on_active
       Global.on_inactive Global.do_preload Global.set_tint
       Global.useA Global.layerA Global.layerB Global.overlay
       Global.observed Global.preloaded negb].

Ltac chapters_fields :=
  cbv [Chapters.active Chapters.inactive Chapters.flip Chapters.on_active
       Chapters.on_inactive Chapters.do_preload Chapters.setActivePanel
       Chapters.useA Chapters.bgA Chapters.bgB Chapters.chapters
       Chapters.panels Chapters.observed Chapters.preloaded negb].

(** ** Strings and class lists *)

Example includes_found :
  includes (serialized_url "background-photos/black.jpeg") "black.jpeg" = true.
Proof. reflexivity. Qed.

Example includes_not_found : includes (serialized_url "black.jpeg") "white.jpeg" = false.
Proof. reflexivity. Qed.

Example includes_empty : includes "" "a.jpg" = false.
Proof. reflexivity. Qed.

Example el_classes :
  classList (el "g-bg g-bgA is-active") = ["g-bg"; "g-bgA"; "is-active"].
Proof. reflexivity. Qed.

Example idx_of_first : idx_of 0 = "1".
Proof. reflexivity. Qed.

Example idx_of_twelfth : idx_of 11 = "12".
Proof. reflexivity. Qed.

Lemma prefix_append (t r : string) : String.prefix t (t +:+ r) = true.
Proof.
  induction t as [|a t IH].
  - change ("" +:+ r) with r. by destruct r.
  - change (String a t +:+ r) with (String a (t +:+ r)).
    cbn [String.prefix].
    destruct (Ascii.ascii_dec a a) as [_|Hne]; [exact IH | by destruct Hne].
Qed.

Lemma includes_prefix (s t : string) :
  String.prefix t s = true → includes s t = true.
Proof. intros H. destruct s; cbn [includes]; by rewrite H. Qed.

Lemma includes_cons (a : Ascii.ascii) (s t : string) :
  includes s t = true → includes (String a s) t = true.
Proof.
  intros H. cbn [includes]. by destruct (String.prefix t (String a s)).
Qed.

Lemma includes_append_l (p s t : string) :
  includes s t = true → includes (p +:+ s) t = true.
Proof.
  intros H. induction p as [|a p IH].
  - exact H.
  - change (String a p +:+ s) with (String a (p +:+ s)). by apply includes_cons.
Qed.

(** A URL value read back contains its URL when that is plain. *)
Lemma includes_serialized_url (u : string) : includes (serialized_url u) u = true.
Proof.
  unfold serialized_url.
  apply includes_append_l, includes_append_l, includes_prefix, prefix_append.
Qed.

(** *** The declarations the model reads *)

Example css_string_escape : css_string "images\hero.jpg" = Some "imageshero.jpg".
Proof. reflexivity. Qed.

Example css_string_quote_numeric_break :
  css_string "it's.jpg" = None ∧ css_string "a\b.jpg" = None ∧
  css_string (String "010" "a.jpg") = None.
Proof. by vm_compute. Qed.

Example plain_value_tints :
  plain_value "rgba(59,130,246,.10)" = true ∧ plain_value "red" = true ∧
  plain_value " red " = false ∧ plain_value "red;" = false ∧
  plain_value "rgb(1,2,3" = false ∧ plain_value "URL(a)" = false.
Proof. by vm_compute. Qed.

Lemma css_string_plain (u : string) : plain_url u = true → css_string u = Some u.
Proof.
  induction u as [|a r IH]; [done|]. cbn [plain_url css_string].
  intros [Ha Hr]%andb_true_iff. rewrite Ha, (IH Hr).
  destruct (Ascii.eqb a "\"%char) eqn:E; [|done].
  apply Ascii.eqb_eq in E. subst a. discriminate Ha.
Qed.

Lemma css_image_plain {B : Browser} (u : string) :
  plain_url u = true → css_image u = Some (serialized_url u).
Proof. intros H. unfold css_image. by rewrite css_string_plain. Qed.

Lemma plain_painted_back {B : Browser} (u : string) :
  plain_url u = true → painted_back u.
Proof.
  intros H. exists (serialized_url u). split; [by apply css_image_plain | apply includes_serialized_url].
Qed.

Lemma set_backgroundImage_plain {B : Browser} (u : string) (e : Element) :
  plain_url u = true →
  set_backgroundImage u e = style_set "background-image" (serialized_url u) e.
Proof. intros H. unfold set_backgroundImage. by rewrite css_image_plain. Qed.


(** An assignment to the background image touches the inline style only,
    and there the one declaration, if the browser keeps it. *)
Lemma set_backgroundImage_frame {B : Browser} (u : string) (e : Element) :
  classList (set_backgroundImage u e) = classList e ∧
  attributes (set_backgroundImage u e) = attributes e.
Proof. unfold set_backgroundImage. by destruct (css_image u). Qed.



Lemma contains_add (tok : string) (e : Element) :
  contains (classList_add tok e) tok = true.
Proof.
  unfold classList_add, contains; simpl.
  apply bool_decide_eq_true. case_bool_decide; set_solver.
Qed.

Lemma contains_remove (tok : string) (e : Element) :
  contains (classList_remove tok e) tok = false.
Proof.
  unfold classList_remove, contains; simpl.
  apply bool_decide_eq_false. rewrite list_elem_of_filter. tauto.
Qed.

Lemma contains_style_set (prop v tok : string) (e : Element) :
  contains (style_set prop v e) tok = contains e tok.
Proof. reflexivity. Qed.

Lemma style_get_set (prop v : string) (e : Element) :
  style_get (style_set prop v e) prop = v.
Proof. unfold style_get, style_set; simpl. by rewrite lookup_insert_eq. Qed.

Lemma backgroundImage_set {B : Browser} (u : string) (e : Element) :
  backgroundImage (set_backgroundImage u e) =
    default (backgroundImage e) (css_image u).
Proof.
  unfold set_backgroundImage. destruct (css_image u); [|done].
  apply style_get_set.
Qed.

Lemma backgroundImage_add (tok : string) (e : Element) :
  backgroundImage (classList_add tok e) = backgroundImage e.
Proof. reflexivity. Qed.

Lemma backgroundImage_remove (tok : string) (e : Element) :
  backgroundImage (classList_remove tok e) = backgroundImage e.
Proof. reflexivity. Qed.

Lemma truthy_Some (o : option string) :
  truthy o = true → ∃ s, o = Some s ∧ s ≠ "".
Proof.
  destruct o as [s|]; simpl; [|done].
  unfold truthy_string. intros H%bool_decide_eq_true. eauto.
Qed.

Lemma classList_add_idem (tok : string) (e : Element) :
  classList_add tok (classList_add tok e) = classList_add tok e.
Proof.
  unfold classList_add at 1. rewrite contains_add. by destruct e.
Qed.

Lemma classList_remove_idem (tok : string) (e : Element) :
  classList_remove tok (classList_remove tok e) = classList_remove tok e.
Proof.
  unfold classList_remove; simpl. f_equal.
  induction (classList e) as [|c l IH]; [done|].
  rewrite filter_cons. destruct (decide (c ≠ tok)) as [Hc|Hc].
  - rewrite filter_cons. rewrite decide_True by done. by rewrite IH.
  - exact IH.
Qed.

(** ** The global variant *)

Lemma global_on_entry_ignored {B : Browser} (st : Global.State) (e : Entry) :
  truthy (getAttribute (target e) "data-bg") = false →
  Global.on_entry st e = st.
Proof.
  intros H. unfold Global.on_entry. rewrite H.
  by destruct (isIntersecting e).
Qed.

(** The two branches an entered marker with an image can take. *)
Section GlobalEntered.
Context {B : Browser} (st : Global.State) (e : Entry) (url : string).
Hypothesis Hi : isIntersecting e = true.
Hypothesis Hu : getAttribute (target e) "data-bg" = Some url.
Hypothesis Hne : url ≠ "".

Lemma global_on_entry_same :
  includes (backgroundImage (Global.active st)) url = true →
  Global.on_entry st e =
    Global.set_tint (js_or (getAttribute (target e) "data-tint") None) st.
Proof.
  intros Hinc. unfold Global.on_entry.
  rewrite Hi, Hu. simpl. unfold truthy_string.
  rewrite bool_decide_eq_true_2 by done. simpl. by rewrite Hinc.
Qed.

Lemma global_on_entry_swap :
  includes (backgroundImage (Global.active st)) url = false →
  Global.on_entry st e =
    Global.set_tint (js_or (getAttribute (target e) "data-tint") None)
      (Global.flip
         (Global.on_active (classList_remove "is-active")
            (Global.on_inactive (classList_add "is-active")
               (Global.on_inactive (set_backgroundImage url)
                  (Global.do_preload url st))))).
Proof.
  intros Hinc. unfold Global.on_entry.
  rewrite Hi, Hu. simpl. unfold truthy_string.
  rewrite bool_decide_eq_true_2 by done. simpl. by rewrite Hinc.
Qed.

End GlobalEntered.

(** [set_tint] touches nothing but the overlay. *)
Lemma global_set_tint_frame {B : Browser} (tint : option string) (st : Global.State) :
  Global.layerA (Global.set_tint tint st) = Global.layerA st ∧
  Global.layerB (Global.set_tint tint st) = Global.layerB st ∧
  Global.useA (Global.set_tint tint st) = Global.useA st ∧
  Global.observed (Global.set_tint tint st) = Global.observed st ∧
  Global.preloaded (Global.set_tint tint st) = Global.preloaded st.
Proof.
  unfold Global.set_tint.
  destruct (Global.overlay st), (truthy tint); simpl; auto.
Qed.

Lemma global_set_tint_active {B : Browser} (tint : option string) (st : Global.State) :
  Global.active (Global.set_tint tint st) = Global.active st ∧
  Global.inactive (Global.set_tint tint st) = Global.inactive st.
Proof.
  unfold Global.active, Global.inactive.
  destruct (global_set_tint_frame tint st) as (-> & -> & -> & _). done.
Qed.

(** What a swap does to the closure of [globalBG]. *)
Lemma global_swap_effects {B : Browser} (st : Global.State) (e : Entry) (url : string) :
  isIntersecting e = true →
  getAttribute (target e) "data-bg" = Some url →
  url ≠ "" →
  includes (backgroundImage (Global.active st)) url = false →
  let st' := Global.on_entry st e in
  Global.useA st' = negb (Global.useA st) ∧
  Global.active st' =
    classList_add "is-active" (set_backgroundImage url (Global.inactive st)) ∧
  Global.inactive st' = classList_remove "is-active" (Global.active st) ∧
  backgroundImage (Global.active st') =
    default (backgroundImage (Global.inactive st)) (css_image url) ∧
  is_active (Global.active st') = true ∧
  is_active (Global.inactive st') = false ∧
  backgroundImage (Global.inactive st') = backgroundImage (Global.active st) ∧
  Global.preloaded st' = (Global.preloaded st ++ [url])%list.
Proof.
  intros Hi Hu Hne Hinc st'. subst st'.
  rewrite (global_on_entry_swap st e url Hi Hu Hne Hinc).
  generalize (js_or (getAttribute (target e) "data-tint") None). intros tint.
  assert (Hp : preload url (Global.preloaded st) = (Global.preloaded st ++ [url])%list).
  { unfold preload, truthy_string. by rewrite bool_decide_eq_true_2. }
  clear Hi Hu Hinc. destruct st as [a b o [|] obs pre]; global_fields;
    cbv [Global.preloaded] in Hp; rewrite Hp;
    destruct o as [o|]; [destruct (truthy tint)| |destruct (truthy tint)|];
    global_fields;
    (split; [reflexivity|]); (split; [reflexivity|]); (split; [reflexivity|]);
    (split; [rewrite backgroundImage_add; apply backgroundImage_set|]);
    (split; [apply contains_add|]); (split; [apply contains_remove|]);
    (split; reflexivity).
Qed.

(** After a swap for a URL the browser reads back with the URL in it, the
    layer now active contains the URL. *)
Lemma global_swap_shown {B : Browser} (st : Global.State) (e : Entry) (url : string) :
  isIntersecting e = true →
  getAttribute (target e) "data-bg" = Some url →
  url ≠ "" →
  includes (backgroundImage (Global.active st)) url = false →
  painted_back url →
  includes (backgroundImage (Global.active (Global.on_entry st e))) url = true.
Proof.
  intros Hi Hu Hne Hinc (v & Hv & Hin).
  destruct (global_swap_effects st e url Hi Hu Hne Hinc) as (_ & _ & _ & -> & _).
  by rewrite Hv.
Qed.

(** C1 (the code departs from it).  Whether an entered marker swaps the
    layers is decided by searching its URL in the style text of the active
    layer.  On the page whose first marker shows black.jpeg?v=2, the marker
    for the different image black.jpeg enters: no layer is written, no
    class moves and nothing is fetched; only the tint is set.  And a swap
    assigns [`url('${url}')`] without escaping the URL: for
    images\hero.jpg the layer that becomes active shows imageshero.jpg,
    another URL than the one fetched.  On the two-section page of the claim
    the swap is as the claim has it: set-up leaves layer A active showing
    black.jpeg and layer B inactive and empty; after the white marker
    enters, B is active showing white.jpeg, A is inactive, the overlay tint
    is rgba(1,2,3,.1) and the image on the active layer is white.jpeg. *)
Theorem different_image_passes_for_shown {B : Browser} :
  "black.jpeg" ≠ "black.jpeg?v=2" ∧
  (globalBG (bootstrap versioned_page) = Some versioned_start ∧
   Global.useA versioned_start = true ∧
   backgroundImage (Global.active versioned_start) = serialized_url "black.jpeg?v=2" ∧
   backgroundImage (Global.inactive versioned_start) = "" ∧
   getAttribute (target unversioned_entered) "data-bg" = Some "black.jpeg" ∧
   let st1 := Global.on_entry versioned_start unversioned_entered in
   Global.layerA st1 = Global.layerA versioned_start ∧
   Global.layerB st1 = Global.layerB versioned_start ∧
   Global.useA st1 = true ∧
   Global.preloaded st1 = Global.preloaded versioned_start ∧
   overlay_tint st1 = Some "rgba(1,2,3,.1)") ∧
  (getAttribute (target backslash_entered) "data-bg" = Some "images\hero.jpg" ∧
   let st1 := Global.on_entry global_start backslash_entered in
   Global.useA st1 = false ∧
   Global.preloaded st1 = ["black.jpeg"; "images\hero.jpg"] ∧
   is_active (Global.active st1) = true ∧
   backgroundImage (Global.active st1) = serialized_url "imageshero.jpg" ∧
   includes (backgroundImage (Global.active st1)) "images\hero.jpg" = false) ∧
  (globalBG (bootstrap two_section_page) = Some global_start ∧
   Global.useA global_start = true ∧
   is_active (Global.layerA global_start) = true ∧
   backgroundImage (Global.layerA global_start) = serialized_url "black.jpeg" ∧
   is_active (Global.layerB global_start) = false ∧
   backgroundImage (Global.layerB global_start) = "" ∧
   let st1 := Global.on_entry global_start white_entered in
   Global.useA st1 = false ∧
   is_active (Global.layerB st1) = true ∧
   backgroundImage (Global.layerB st1) = serialized_url "white.jpeg" ∧
   is_active (Global.layerA st1) = false ∧
   backgroundImage (Global.layerA st1) = serialized_url "black.jpeg" ∧
   overlay_tint st1 = Some "rgba(1,2,3,.1)" ∧
   backgroundImage (Global.active st1) = serialized_url "white.jpeg").
Proof.
  split; [discriminate|]. split; [|split].
  - split; [reflexivity|]. vm_compute. repeat split.
  - split; [reflexivity|]. vm_compute. repeat split.
  - split; [reflexivity|]. vm_compute. repeat split.
Qed.

(** C2 (the code departs from it). The callbacks decide "already showing"
    with [includes] on the active layer's style string, not by comparing
    URLs.  On a page whose first marker shows background-photos/black.jpeg,
    the marker for the different image black.jpeg enters and nothing is
    swapped: the state is unchanged.  The pinned variant does the same,
    apart from moving the current panel. *)
Theorem already_showing_is_a_substring_test {B : Browser} :
  "black.jpeg" ≠ "background-photos/black.jpeg" ∧
  (∃ st0 : Global.State,
     globalBG (bootstrap substring_page) = Some st0 ∧
     backgroundImage (Global.active st0) = serialized_url "background-photos/black.jpeg" ∧
     getAttribute (target other_black_entered) "data-bg" = Some "black.jpeg" ∧
     Global.on_entry st0 other_black_entered = st0) ∧
  (∃ c0 m1 m2,
     chaptersBG (bootstrap_chapters substring_chapters) = Started c0 ∧
     Chapters.observed c0 = [m1; m2] ∧
     let c1 := Chapters.on_entry c0 (entered m1) in
     let c2 := Chapters.on_entry c1 (entered m2) in
     backgroundImage (Chapters.active c1) = serialized_url "background-photos/black.jpeg" ∧
     getAttribute m2 "data-bg" = Some "black.jpeg" ∧
     Chapters.bgA c2 = Chapters.bgA c1 ∧
     Chapters.bgB c2 = Chapters.bgB c1 ∧
     Chapters.useA c2 = Chapters.useA c1 ∧
     Chapters.preloaded c2 = Chapters.preloaded c1).
Proof.
  split; [discriminate|]. split.
  - eexists. split; [reflexivity|]. by vm_compute.
  - do 3 eexists. split; [reflexivity|]. split; [reflexivity|]. by vm_compute.
Qed.

(** C7. An entry whose marker has no data-bg attribute, or an empty one,
    leaves the controller of either variant exactly as it was: layers,
    classes, overlay, panels, [useA] and the fetches started. *)
Theorem empty_image_ignored {B : Browser} (g : Global.State) (c : Chapters.State) (e : Entry) :
  truthy (getAttribute (target e) "data-bg") = false →
  Global.on_entry g e = g ∧ Chapters.on_entry c e = c.
Proof.
  intros H. split.
  - by apply global_on_entry_ignored.
  - unfold Chapters.on_entry. rewrite H. by destruct (isIntersecting e).
Qed.

(** C10. In the global variant an entry whose marker has no data-tint
    attribute, or an empty one, leaves the overlay as it was, whether or
    not the entry swaps the layers. *)
Theorem tint_kept_without_value {B : Browser} (st : Global.State) (e : Entry) :
  truthy (getAttribute (target e) "data-tint") = false →
  Global.overlay (Global.on_entry st e) = Global.overlay st.
Proof.
  intros H.
  assert (Hn : ∀ s, Global.overlay
            (Global.set_tint (js_or (getAttribute (target e) "data-tint") None) s)
            = Global.overlay s).
  { intros s. unfold js_or. rewrite H. unfold Global.set_tint.
    by destruct (Global.overlay s) eqn:E. }
  unfold Global.on_entry.
  destruct (isIntersecting e); simpl; [|done].
  destruct (truthy (getAttribute (target e) "data-bg")); simpl; [|done].
  destruct (includes _ _); rewrite Hn; [done|].
  destruct st as [a b o [|] obs pre]; reflexivity.
Qed.

(** An entry with an empty image attribute, at the start states of the
    two scenario pages. *)
Lemma empty_image_ignored_witness :
  truthy (getAttribute (target spacer_entered) "data-bg") = false ∧
  Global.on_entry global_start spacer_entered = global_start ∧
  Chapters.on_entry chapters_start spacer_entered = chapters_start.
Proof.
  assert (H : truthy (getAttribute (target spacer_entered) "data-bg") = false)
    by reflexivity.
  exact (conj H (empty_image_ignored global_start chapters_start spacer_entered H)).
Defined.

(** An entry that swaps the layers and carries an empty tint attribute. *)
Lemma tint_kept_without_value_witness :
  truthy (getAttribute (target untinted_entered) "data-tint") = false ∧
  Global.overlay (Global.on_entry global_start untinted_entered) =
    Global.overlay global_start.
Proof.
  assert (H : truthy (getAttribute (target untinted_entered) "data-tint") = false)
    by reflexivity.
  exact (conj H (tint_kept_without_value global_start untinted_entered H)).
Defined.

Example untinted_entry_swaps {B : Browser} :
  Global.useA (Global.on_entry global_start untinted_entered) = false.
Proof. reflexivity. Qed.

Example chapters_start_built :
  chaptersBG (bootstrap_chapters shared_image_chapters) = Started chapters_start.
Proof. reflexivity. Qed.

(** ** Runs of entries with one image *)

Lemma global_same_layers_active (st st' : Global.State) :
  global_same_layers st st' → Global.active st' = Global.active st.
Proof. intros (HA & HB & HU & _). unfold Global.active. by rewrite HA, HB, HU. Qed.

Lemma global_same_layers_trans (st1 st2 st3 : Global.State) :
  global_same_layers st1 st2 → global_same_layers st2 st3 →
  global_same_layers st1 st3.
Proof.
  unfold global_same_layers. intros (?&?&?&?) (?&?&?&?).
  repeat split; congruence.
Qed.

(** Once the active layer contains [u], an entry carrying [u] swaps nothing. *)
Lemma global_shown_no_swap {B : Browser} (st : Global.State) (u : option string) (e : Entry) :
  getAttribute (target e) "data-bg" = u →
  (truthy u = true → includes (backgroundImage (Global.active st)) (or_empty u) = true) →
  global_same_layers st (Global.on_entry st e).
Proof.
  intros Hu Hshown. unfold Global.on_entry. rewrite Hu.
  destruct (isIntersecting e); simpl; [|by repeat split].
  destruct (truthy u) eqn:Ht; simpl; [|by repeat split].
  rewrite Hshown by done.
  destruct (global_set_tint_frame (js_or (getAttribute (target e) "data-tint") None) st)
    as (? & ? & ? & _ & ?).
  by repeat split.
Qed.

(** After an entered marker with an image [u] that the browser reads back
    with [u] in it, the active layer contains [u]. *)
Lemma global_entered_shown {B : Browser} (st : Global.State) (u : option string) (e : Entry) :
  isIntersecting e = true →
  getAttribute (target e) "data-bg" = u →
  truthy u = true →
  painted_back (or_empty u) →
  includes (backgroundImage (Global.active (Global.on_entry st e))) (or_empty u) = true.
Proof.
  intros Hi Hu Ht. destruct (truthy_Some u Ht) as (url & -> & Hne). simpl. intros Hback.
  destruct (includes (backgroundImage (Global.active st)) url) eqn:Hinc.
  - rewrite (global_on_entry_same st e url Hi Hu Hne Hinc).
    by destruct (global_set_tint_active
      (js_or (getAttribute (target e) "data-tint") None) st) as [-> _].
  - by apply global_swap_shown.
Qed.

(** ** The pinned variant *)

Lemma contains_toggle (tok : string) (force : bool) (e : Element) :
  contains (classList_toggle tok force e) tok = force.
Proof. destruct force; [apply contains_add | apply contains_remove]. Qed.

Lemma classList_toggle_idem (tok : string) (force : bool) (e : Element) :
  classList_toggle tok force (classList_toggle tok force e) =
  classList_toggle tok force e.
Proof. destruct force; [apply classList_add_idem | apply classList_remove_idem]. Qed.

Lemma getAttribute_toggle (tok name : string) (force : bool) (e : Element) :
  getAttribute (classList_toggle tok force e) name = getAttribute e name.
Proof. by destruct force. Qed.

(** [setActivePanel] touches the block's data-active and the panels only. *)
Lemma setActivePanel_same_layers (idx : string) (st : Chapters.State) :
  chapters_same_layers st (Chapters.setActivePanel idx st).
Proof. by repeat split. Qed.

Lemma setActivePanel_current (idx : string) (st : Chapters.State) :
  dataset_active (Chapters.setActivePanel idx st) = Some idx ∧
  current_flags (Chapters.setActivePanel idx st) =
    (λ p, bool_decide (getAttribute p "data-idx" = Some idx)) <$> Chapters.panels st.
Proof.
  split.
  - unfold dataset_active, getAttribute; simpl. apply lookup_insert_eq.
  - unfold current_flags; simpl. rewrite <- list_fmap_compose.
    apply list_fmap_ext. intros i p _. simpl.
    unfold Chapters.toggle_panel, is_active. apply contains_toggle.
Qed.

Section ChaptersEntered.
Context {B : Browser} (st : Chapters.State) (e : Entry) (url : string).
Hypothesis Hi : isIntersecting e = true.
Hypothesis Hu : getAttribute (target e) "data-bg" = Some url.
Hypothesis Hne : url ≠ "".

Lemma chapters_on_entry_same :
  includes (backgroundImage (Chapters.active st)) url = true →
  Chapters.on_entry st e = Chapters.setActivePanel (marker_idx (target e)) st.
Proof.
  intros Hinc. unfold Chapters.on_entry.
  rewrite Hi, Hu. simpl. unfold truthy_string.
  rewrite bool_decide_eq_true_2 by done. simpl. by rewrite Hinc.
Qed.

Lemma chapters_on_entry_swap :
  includes (backgroundImage (Chapters.active st)) url = false →
  Chapters.on_entry st e =
    Chapters.setActivePanel (marker_idx (target e))
      (Chapters.flip
         (Chapters.on_active (classList_remove "is-active")
            (Chapters.on_inactive (classList_add "is-active")
               (Chapters.on_inactive (set_backgroundImage url)
                  (Chapters.do_preload url st))))).
Proof.
  intros Hinc. unfold Chapters.on_entry.
  rewrite Hi, Hu. simpl. unfold truthy_string.
  rewrite bool_decide_eq_true_2 by done. simpl. by rewrite Hinc.
Qed.

End ChaptersEntered.

(** What a swap does to the closure of [chaptersBG]. *)
Lemma chapters_swap_effects {B : Browser} (st : Chapters.State) (e : Entry) (url : string) :
  isIntersecting e = true →
  getAttribute (target e) "data-bg" = Some url →
  url ≠ "" →
  includes (backgroundImage (Chapters.active st)) url = false →
  let st' := Chapters.on_entry st e in
  Chapters.useA st' = negb (Chapters.useA st) ∧
  Chapters.active st' =
    classList_add "is-active" (set_backgroundImage url (Chapters.inactive st)) ∧
  Chapters.inactive st' = classList_remove "is-active" (Chapters.active st) ∧
  backgroundImage (Chapters.active st') =
    default (backgroundImage (Chapters.inactive st)) (css_image url) ∧
  is_active (Chapters.active st') = true ∧
  is_active (Chapters.inactive st') = false.
Proof.
  intros Hi Hu Hne Hinc st'. subst st'.
  rewrite (chapters_on_entry_swap st e url Hi Hu Hne Hinc).
  generalize (marker_idx (target e)). intros idx.
  clear Hi Hu Hinc. destruct st as [c a b ps [|] obs pre]; chapters_fields;
    (split; [reflexivity|]); (split; [reflexivity|]); (split; [reflexivity|]);
    (split; [rewrite backgroundImage_add; apply backgroundImage_set|]);
    (split; [apply contains_add | apply contains_remove]).
Qed.

Lemma chapters_same_layers_active (st st' : Chapters.State) :
  chapters_same_layers st st' → Chapters.active st' = Chapters.active st.
Proof. intros (HA & HB & HU & _). unfold Chapters.active. by rewrite HA, HB, HU. Qed.

Lemma chapters_same_layers_trans (st1 st2 st3 : Chapters.State) :
  chapters_same_layers st1 st2 → chapters_same_layers st2 st3 →
  chapters_same_layers st1 st3.
Proof.
  unfold chapters_same_layers. intros (?&?&?&?) (?&?&?&?).
  repeat split; congruence.
Qed.

Lemma chapters_shown_no_swap {B : Browser} (st : Chapters.State) (u : option string) (e : Entry) :
  getAttribute (target e) "data-bg" = u →
  (truthy u = true → includes (backgroundImage (Chapters.active st)) (or_empty u) = true) →
  chapters_same_layers st (Chapters.on_entry st e).
Proof.
  intros Hu Hshown. unfold Chapters.on_entry. rewrite Hu.
  destruct (isIntersecting e); simpl; [|by repeat split].
  destruct (truthy u) eqn:Ht; simpl; [|by repeat split].
  rewrite Hshown by done. apply setActivePanel_same_layers.
Qed.

Lemma chapters_entered_shown {B : Browser} (st : Chapters.State) (u : option string) (e : Entry) :
  isIntersecting e = true →
  getAttribute (target e) "data-bg" = u →
  truthy u = true →
  painted_back (or_empty u) →
  includes (backgroundImage (Chapters.active (Chapters.on_entry st e))) (or_empty u) = true.
Proof.
  intros Hi Hu Ht. destruct (truthy_Some u Ht) as (url & -> & Hne). simpl.
  intros (v & Hv & Hin).
  destruct (includes (backgroundImage (Chapters.active st)) url) eqn:Hinc.
  - rewrite (chapters_on_entry_same st e url Hi Hu Hne Hinc).
    by rewrite (chapters_same_layers_active st _ (setActivePanel_same_layers _ st)).
  - destruct (chapters_swap_effects st e url Hi Hu Hne Hinc) as (_ & _ & _ & -> & _).
    by rewrite Hv.
Qed.

(** A run that starts with the active layer containing [u] swaps nothing. *)
Lemma global_run_no_swap {B : Browser} (u : option string) (es : list Entry) (st : Global.State) :
  same_image u es →
  (truthy u = true → includes (backgroundImage (Global.active st)) (or_empty u) = true) →
  global_same_layers st (Global.callback st es).
Proof.
  unfold Global.callback. intros Hes. revert st.
  induction Hes as [|e es He Hes IH]; intros st Hshown; simpl.
  - by repeat split.
  - pose proof (global_shown_no_swap st u e He Hshown) as Hstep.
    eapply global_same_layers_trans; [exact Hstep|].
    apply IH. by rewrite (global_same_layers_active _ _ Hstep).
Qed.

Lemma chapters_run_no_swap {B : Browser} (u : option string) (es : list Entry) (st : Chapters.State) :
  same_image u es →
  (truthy u = true → includes (backgroundImage (Chapters.active st)) (or_empty u) = true) →
  chapters_same_layers st (Chapters.callback st es).
Proof.
  unfold Chapters.callback. intros Hes. revert st.
  induction Hes as [|e es He Hes IH]; intros st Hshown; simpl.
  - by repeat split.
  - pose proof (chapters_shown_no_swap st u e He Hshown) as Hstep.
    eapply chapters_same_layers_trans; [exact Hstep|].
    apply IH. by rewrite (chapters_same_layers_active _ _ Hstep).
Qed.

(** In a run of entries with one image that the browser reads back with
    the URL in it, only the first entry can swap. *)
Lemma global_run_swaps_once {B : Browser}
    (st : Global.State) (u : option string) (e : Entry) (es : list Entry) :
  isIntersecting e = true →
  same_image u (e :: es) →
  (truthy u = true → painted_back (or_empty u)) →
  let st1 := Global.on_entry st e in
  global_same_layers st1 (Global.callback st1 es) ∧
  backgroundImage (Global.active (Global.callback st1 es)) =
    backgroundImage (Global.active st1).
Proof.
  intros Hi Hrun Hback st1. apply Forall_cons in Hrun as [He Hes].
  assert (H : global_same_layers st1 (Global.callback st1 es)).
  { apply (global_run_no_swap u); [done|].
    intros Ht. apply global_entered_shown; auto. }
  split; [exact H|]. by rewrite (global_same_layers_active _ _ H).
Qed.

Lemma chapters_run_swaps_once {B : Browser}
    (st : Chapters.State) (u : option string) (e : Entry) (es : list Entry) :
  isIntersecting e = true →
  same_image u (e :: es) →
  (truthy u = true → painted_back (or_empty u)) →
  let st1 := Chapters.on_entry st e in
  chapters_same_layers st1 (Chapters.callback st1 es) ∧
  backgroundImage (Chapters.active (Chapters.callback st1 es)) =
    backgroundImage (Chapters.active st1).
Proof.
  intros Hi Hrun Hback st1. apply Forall_cons in Hrun as [He Hes].
  assert (H : chapters_same_layers st1 (Chapters.callback st1 es)).
  { apply (chapters_run_no_swap u); [done|].
    intros Ht. apply chapters_entered_shown; auto. }
  split; [exact H|]. by rewrite (chapters_same_layers_active _ _ H).
Qed.

(** C4 (the code departs from it).  Whether the image of an entry is the
    one shown is decided by searching the URL of the entry in the style
    text of the active layer, and the layers are painted with
    [`url('${url}')`], the URL unescaped.  For a marker whose image is
    images\hero.jpg the layer painted shows imageshero.jpg, in which the
    URL does not occur: in a run of three entries of that marker every
    entry swaps the layers and starts a fetch, in both variants. *)
Theorem repeated_image_can_swap_every_time {B : Browser} :
  same_image (Some "images\hero.jpg")
    [backslash_entered; backslash_entered; backslash_entered] ∧
  (let st1 := Global.on_entry global_start backslash_entered in
   let st2 := Global.on_entry st1 backslash_entered in
   let st3 := Global.on_entry st2 backslash_entered in
   Global.useA global_start = true ∧ Global.useA st1 = false ∧
   Global.useA st2 = true ∧ Global.useA st3 = false ∧
   is_active (Global.layerA st1) = false ∧ is_active (Global.layerA st2) = true ∧
   is_active (Global.layerA st3) = false ∧
   backgroundImage (Global.active st1) = serialized_url "imageshero.jpg" ∧
   backgroundImage (Global.layerA st2) = serialized_url "imageshero.jpg" ∧
   Global.preloaded st3 =
     ["black.jpeg"; "images\hero.jpg"; "images\hero.jpg"; "images\hero.jpg"]) ∧
  (∃ c0, chaptersBG (bootstrap_chapters backslash_chapters) = Started c0 ∧
     Chapters.observed c0 = [backslash_segment1; backslash_segment2] ∧
     same_image (Some "images\hero.jpg")
       [entered backslash_segment1; entered backslash_segment2] ∧
     let c1 := Chapters.on_entry c0 (entered backslash_segment1) in
     let c2 := Chapters.on_entry c1 (entered backslash_segment2) in
     Chapters.useA c0 = true ∧ Chapters.useA c1 = false ∧ Chapters.useA c2 = true ∧
     Chapters.preloaded c2 = ["images\hero.jpg"; "images\hero.jpg"]).
Proof.
  split; [by repeat constructor|]. split.
  - vm_compute. repeat split.
  - eexists. split; [reflexivity|]. split; [reflexivity|].
    split; [by repeat constructor|]. vm_compute. repeat split.
Qed.

(** The pinned callback when the URL of the entry occurs in the style
    text of the active layer. *)
Lemma chapters_shown_moves_panel {B : Browser}
    (st : Chapters.State) (e : Entry) (url : string) :
  isIntersecting e = true →
  getAttribute (target e) "data-bg" = Some url →
  url ≠ "" →
  includes (backgroundImage (Chapters.active st)) url = true →
  let st' := Chapters.on_entry st e in
  chapters_same_layers st st' ∧
  dataset_active st' = Some (marker_idx (target e)) ∧
  current_flags st' =
    (λ p, bool_decide (getAttribute p "data-idx" = Some (marker_idx (target e))))
      <$> Chapters.panels st.
Proof.
  intros Hi Hu Hne Hshown st'. subst st'.
  rewrite (chapters_on_entry_same st e url Hi Hu Hne Hshown).
  split; [apply setActivePanel_same_layers | apply setActivePanel_current].
Qed.

(** C5 (the code departs from it).  On the block with segments 1 and 2
    that share a.jpg the callback does what the claim says: set-up makes
    panel 1 current; after segment 1 enters, panel 1 is current and the
    active layer shows a.jpg; after segment 2 enters, the layers are as
    they were, the active layer still shows a.jpg, and panel 2 is current.
    But that the image of an entry is the one shown is decided by
    searching its URL in the style text of the active layer, painted with
    the URL unescaped: when the two segments share images\hero.jpg, the
    entry of segment 2 swaps the layers again and starts a second fetch
    (panel 2 becomes current all the same). *)
Theorem same_image_can_swap_again {B : Browser} :
  (chaptersBG (bootstrap_chapters shared_image_chapters) = Started chapters_start ∧
   dataset_active chapters_start = Some "1" ∧
   current_flags chapters_start = [true; false] ∧
   let s1 := Chapters.on_entry chapters_start (entered segment1) in
   let s2 := Chapters.on_entry s1 (entered segment2) in
   dataset_active s1 = Some "1" ∧
   current_flags s1 = [true; false] ∧
   backgroundImage (Chapters.active s1) = serialized_url "a.jpg" ∧
   is_active (Chapters.active s1) = true ∧
   chapters_same_layers s1 s2 ∧
   backgroundImage (Chapters.active s2) = serialized_url "a.jpg" ∧
   is_active (Chapters.active s2) = true ∧
   dataset_active s2 = Some "2" ∧
   current_flags s2 = [false; true]) ∧
  (∃ c0, chaptersBG (bootstrap_chapters backslash_chapters) = Started c0 ∧
     getAttribute backslash_segment1 "data-bg" = Some "images\hero.jpg" ∧
     getAttribute backslash_segment2 "data-bg" = Some "images\hero.jpg" ∧
     let c1 := Chapters.on_entry c0 (entered backslash_segment1) in
     let c2 := Chapters.on_entry c1 (entered backslash_segment2) in
     current_flags c1 = [true; false] ∧
     Chapters.useA c1 = false ∧
     backgroundImage (Chapters.active c1) = serialized_url "imageshero.jpg" ∧
     Chapters.preloaded c1 = ["images\hero.jpg"] ∧
     Chapters.useA c2 = true ∧
     Chapters.bgA c2 ≠ Chapters.bgA c1 ∧
     Chapters.bgB c2 ≠ Chapters.bgB c1 ∧
     Chapters.preloaded c2 = ["images\hero.jpg"; "images\hero.jpg"] ∧
     dataset_active c2 = Some "2" ∧
     current_flags c2 = [false; true]).
Proof.
  split.
  - split; [reflexivity|]. vm_compute. repeat split.
  - eexists. split; [reflexivity|]. split; [reflexivity|]. split; [reflexivity|].
    vm_compute. repeat split; discriminate.
Qed.

(** ** Panels *)

Lemma toggle_panel_idem (idx : string) (p : Element) :
  Chapters.toggle_panel idx (Chapters.toggle_panel idx p) = Chapters.toggle_panel idx p.
Proof.
  unfold Chapters.toggle_panel. rewrite getAttribute_toggle.
  apply classList_toggle_idem.
Qed.

Lemma setActivePanel_idem (idx : string) (st : Chapters.State) :
  Chapters.setActivePanel idx (Chapters.setActivePanel idx st) =
  Chapters.setActivePanel idx st.
Proof.
  destruct st as [c a b ps u obs pre]. chapters_fields. f_equal.
  - unfold setAttribute; simpl. f_equal. apply insert_insert_eq.
  - rewrite <- list_fmap_compose. apply list_fmap_ext. intros i p _. simpl.
    apply toggle_panel_idem.
Qed.

(** After [setActivePanel idx] the current panels are those indexed [idx]. *)
Lemma setActivePanel_count (idx : string) (st : Chapters.State) :
  current_count (Chapters.setActivePanel idx st) =
  panels_indexed idx (Chapters.panels st).
Proof.
  unfold current_count, panels_indexed; simpl.
  induction (Chapters.panels st) as [|p ps IH]; [done|].
  rewrite fmap_cons, !filter_cons.
  assert (Hact : is_active (Chapters.toggle_panel idx p) =
                 bool_decide (getAttribute p "data-idx" = Some idx))
    by apply contains_toggle.
  destruct (decide (getAttribute p "data-idx" = Some idx)) as [Hp|Hp].
  - rewrite bool_decide_eq_true_2 in Hact by done.
    rewrite decide_True by exact Hact. simpl. by rewrite IH.
  - rewrite bool_decide_eq_false_2 in Hact by done.
    rewrite decide_False by (rewrite Hact; discriminate). exact IH.
Qed.

(** Every processed entry ends with [setActivePanel] of the marker's index. *)
Lemma chapters_on_entry_panel {B : Browser} (st : Chapters.State) (e : Entry) :
  isIntersecting e = true →
  truthy (getAttribute (target e) "data-bg") = true →
  ∃ st0, Chapters.on_entry st e = Chapters.setActivePanel (marker_idx (target e)) st0 ∧
         Chapters.panels st0 = Chapters.panels st ∧
         Chapters.observed st0 = Chapters.observed st.
Proof.
  intros Hi Ht. unfold Chapters.on_entry. rewrite Hi, Ht. simpl.
  destruct (includes _ _).
  - by eexists.
  - eexists. split; [reflexivity|]. by destruct st as [c a b ps [|] obs pre].
Qed.

Lemma idx_of_inj : Inj (=) (=) idx_of.
Proof. intros i j H. unfold idx_of in H. apply (inj pretty) in H. lia. Qed.

Lemma filter_eq_NoDup_length {A} `{EqDecision A} (x : A) (l : list A) :
  NoDup l → x ∈ l → length (filter (λ y, y = x) l) = 1.
Proof.
  induction 1 as [|y l Hy Hl IH]; intros Hx.
  - by apply elem_of_nil in Hx.
  - rewrite filter_cons. destruct (decide (y = x)) as [->|Hne].
    + assert (Hnil : filter (λ y, y = x) l = []).
      { destruct (filter (λ y, y = x) l) as [|z l'] eqn:E; [done|].
        assert (Hz : z ∈ filter (λ y, y = x) l) by (rewrite E; left).
        apply list_elem_of_filter in Hz as [-> Hz]. done. }
      by rewrite Hnil.
    + apply IH. apply elem_of_cons in Hx as [->|Hx]; [done | exact Hx].
Qed.

Lemma panels_indexed_fmap (idx : string) (ps : list Element) :
  panels_indexed idx ps =
  length (filter (λ o, o = Some idx) ((λ p, getAttribute p "data-idx") <$> ps)).
Proof.
  unfold panels_indexed. induction ps as [|p ps IH]; [done|].
  rewrite fmap_cons, !filter_cons.
  destruct (decide (getAttribute p "data-idx" = Some idx)); simpl; by rewrite IH.
Qed.

(** Among panels numbered 1 to [n], exactly one has a given number. *)
Lemma panels_indexed_one (n i : nat) (ps : list Element) :
  (λ p, getAttribute p "data-idx") <$> ps = (λ i, Some (idx_of i)) <$> seq 0 n →
  i < n →
  panels_indexed (idx_of i) ps = 1.
Proof.
  intros Hps Hi. rewrite panels_indexed_fmap, Hps.
  apply filter_eq_NoDup_length.
  - apply NoDup_fmap_2; [|apply NoDup_seq].
    intros a b [= H]. by apply idx_of_inj.
  - apply list_elem_of_fmap. exists i. split; [done|].
    apply elem_of_seq. lia.
Qed.

Lemma marker_idx_Some (m : Element) (s : string) :
  getAttribute m "data-idx" = Some s → marker_idx m = s.
Proof.
  intros H. unfold marker_idx, js_or. rewrite H. simpl.
  unfold truthy_string. case_bool_decide; simpl; [done|].
  destruct (decide (s = "")) as [->|]; [done|contradiction].
Qed.

Lemma panels_idx_setActivePanel (idx : string) (st : Chapters.State) :
  (λ p, getAttribute p "data-idx") <$> Chapters.panels (Chapters.setActivePanel idx st) =
  (λ p, getAttribute p "data-idx") <$> Chapters.panels st.
Proof.
  simpl. rewrite <- list_fmap_compose. apply list_fmap_ext. intros i p _. simpl.
  apply getAttribute_toggle.
Qed.

(** An entry for an observed marker keeps a synthesized block synthesized
    and leaves exactly one panel current. *)
Lemma synthesized_on_entry {B : Browser} (n : nat) (st : Chapters.State) (e : Entry) :
  synthesized n st → current_count st = 1 →
  target e ∈ Chapters.observed st →
  synthesized n (Chapters.on_entry st e) ∧ current_count (Chapters.on_entry st e) = 1.
Proof.
  intros [Hps Hobs] Hcount Hin.
  destruct (isIntersecting e) eqn:Hi.
  2:{ unfold Chapters.on_entry. rewrite Hi. simpl. by repeat split. }
  pose proof (proj1 (Forall_forall _ _) Hobs _ Hin) as (Hbg & i & Hlt & Hidx).
  destruct (chapters_on_entry_panel st e Hi Hbg) as (st0 & -> & Hpanels & Hobserved).
  rewrite (marker_idx_Some _ _ Hidx). split; [split|].
  - by rewrite panels_idx_setActivePanel, Hpanels.
  - simpl. by rewrite Hobserved.
  - rewrite setActivePanel_count, Hpanels. by apply (panels_indexed_one n).
Qed.

Lemma synthesized_callback {B : Browser} (n : nat) (es : list Entry) (st : Chapters.State) :
  synthesized n st → current_count st = 1 →
  Forall (λ e, target e ∈ Chapters.observed st) es →
  synthesized n (Chapters.callback st es) ∧ current_count (Chapters.callback st es) = 1.
Proof.
  unfold Chapters.callback. revert st.
  induction es as [|e es IH]; intros st Hs Hc Hes; simpl; [done|].
  apply Forall_cons in Hes as [He Hes].
  destruct (synthesized_on_entry n st e Hs Hc He) as [Hs' Hc'].
  apply IH; [done|done|].
  assert (Hobs : Chapters.observed (Chapters.on_entry st e) = Chapters.observed st).
  { unfold Chapters.on_entry.
    destruct (isIntersecting e); simpl; [|done].
    destruct (truthy _); simpl; [|done].
    destruct (includes _ _); [done|]. by destruct st as [c a b ps [|] obs pre]. }
  by rewrite Hobs.
Qed.

Lemma number_panel_idx (i : nat) (p : Element) :
  truthy (getAttribute p "data-idx") = false →
  getAttribute (number_panel i p) "data-idx" = Some (idx_of i).
Proof.
  intros H. unfold number_panel. rewrite H.
  unfold getAttribute, setAttribute; simpl. apply lookup_insert_eq.
Qed.

Lemma synthesize_marker_attrs (i : nat) (p : Element) :
  truthy (getAttribute (synthesize_marker i p) "data-bg") = true ∧
  getAttribute (synthesize_marker i p) "data-idx" = Some (idx_of i).
Proof.
  unfold synthesize_marker, getAttribute, style_set, setAttribute; simpl. split.
  - rewrite lookup_insert_eq. unfold js_or.
    destruct (truthy (attributes p !! "data-bg")) eqn:Ht.
    + destruct (truthy_Some _ Ht) as (s & -> & Hs). simpl.
      unfold truthy_string. by apply bool_decide_eq_true.
    + simpl. by case_bool_decide.
  - rewrite lookup_insert_ne by done. apply lookup_insert_eq.
Qed.

(** [chaptersBG] by what it finds in the block. *)
Lemma chaptersBG_unfold (c : ChaptersRoot) :
  chaptersBG c =
    let synth := bool_decide (c_markers c = []) && bool_decide (c_panels c ≠ []) in
    if synth && not_a_child (afterSticky (ensure_layers c))
    then Threw (left_at_first_marker (ensure_layers c))
    else
      let panels := if synth then imap number_panel (c_panels c) else c_panels c in
      let liveMarkers :=
        if synth then imap synthesize_marker (c_panels c) else c_markers c in
      match liveMarkers with
      | [] => Returned
      | _ =>
          Started (Chapters.setActivePanel (first_panel c)
                     (Chapters.mkState (setAttribute "data-active" (first_panel c) (c_root c))
                        (default (el "chapters-bg chapters-bgA is-active") (c_bgA c))
                        (default (el "chapters-bg chapters-bgB") (c_bgB c))
                        panels true liveMarkers []))
      end.
Proof. reflexivity. Qed.

(** The closure [chaptersBG] builds when it creates its observer. *)
Lemma chaptersBG_Started (c : ChaptersRoot) (st : Chapters.State) :
  chaptersBG c = Started st →
  let synth := bool_decide (c_markers c = []) && bool_decide (c_panels c ≠ []) in
  let panels := if synth then imap number_panel (c_panels c) else c_panels c in
  let liveMarkers := if synth then imap synthesize_marker (c_panels c) else c_markers c in
  liveMarkers ≠ [] ∧
  st = Chapters.setActivePanel (first_panel c)
         (Chapters.mkState (setAttribute "data-active" (first_panel c) (c_root c))
            (default (el "chapters-bg chapters-bgA is-active") (c_bgA c))
            (default (el "chapters-bg chapters-bgB") (c_bgB c))
            panels true liveMarkers []).
Proof.
  rewrite chaptersBG_unfold. cbn zeta.
  destruct (_ && not_a_child _); [discriminate|].
  destruct (if _ && _ then imap synthesize_marker (c_panels c) else c_markers c)
    as [|m ms]; [discriminate|].
  intros [= <-]. by split.
Qed.

(** What [chaptersBG] leaves when it synthesizes the markers of a block
    whose panels have no index and that names no active panel. *)
Lemma chaptersBG_synthesized (c : ChaptersRoot) (st : Chapters.State) :
  chaptersBG c = Started st →
  c_markers c = [] →
  Forall (λ p, truthy (getAttribute p "data-idx") = false) (c_panels c) →
  truthy (getAttribute (c_root c) "data-active") = false →
  synthesized (length (c_panels c)) st ∧
  current_count st = 1 ∧
  head (current_flags st) = Some true ∧
  dataset_active st = Some "1".
Proof.
  intros Hst Hm Hps Hroot.
  destruct (chaptersBG_Started c st Hst) as [Hlive ->].
  assert (Hfirst : first_panel c = "1").
  { unfold first_panel, js_or. by rewrite Hroot. }
  rewrite Hfirst. rewrite Hm in Hlive |- *.
  destruct (c_panels c) as [|p ps] eqn:Hpanels; [done|].
  rewrite bool_decide_eq_true_2 by done. rewrite bool_decide_eq_true_2 by done.
  cbn [andb]. clear Hlive.
  assert (Hidx : (λ q, getAttribute q "data-idx") <$> imap number_panel (p :: ps) =
                 (λ i, Some (idx_of i)) <$> seq 0 (length (p :: ps))).
  { apply list_eq. intros i.
    rewrite !list_lookup_fmap, list_lookup_imap.
    destruct ((p :: ps) !! i) as [q|] eqn:Hq.
    - pose proof (lookup_lt_Some _ _ _ Hq) as Hlt.
      rewrite lookup_seq_lt by exact Hlt. simpl.
      by rewrite (number_panel_idx i q)
        by exact (proj1 (Forall_lookup _ _) Hps i q Hq).
    - apply lookup_ge_None in Hq. by rewrite lookup_seq_ge by exact Hq. }
  assert (Hsyn : synthesized (length (p :: ps))
            (Chapters.setActivePanel "1"
               (Chapters.mkState (setAttribute "data-active" "1" (c_root c))
                  (default (el "chapters-bg chapters-bgA is-active") (c_bgA c))
                  (default (el "chapters-bg chapters-bgB") (c_bgB c))
                  (imap number_panel (p :: ps)) true
                  (imap synthesize_marker (p :: ps)) []))).
  { split.
    - by rewrite panels_idx_setActivePanel.
    - apply Forall_lookup. intros i m Hi. cbn [Chapters.observed Chapters.setActivePanel] in Hi.
      rewrite list_lookup_imap in Hi.
      destruct ((p :: ps) !! i) as [q|] eqn:Hq; [|discriminate].
      injection Hi as <-. destruct (synthesize_marker_attrs i q) as [Hbg Hi'].
      split; [exact Hbg|]. exists i. split; [|exact Hi'].
      by apply lookup_lt_Some in Hq. }
  split; [exact Hsyn|]. split; [|split].
  - rewrite setActivePanel_count. cbn [Chapters.panels].
    apply (panels_indexed_one (length (p :: ps)) 0); [exact Hidx | simpl; lia].
  - rewrite (proj2 (setActivePanel_current _ _)). cbn [Chapters.panels imap fmap list_fmap head].
    f_equal. apply bool_decide_eq_true.
    apply (number_panel_idx 0 p). by apply Forall_cons in Hps as [? _].
  - apply setActivePanel_current.
Qed.

(** The block with a marker that has an image and no index, in any
    browser. *)
Lemma unindexed_marker_in_any_browser {B : Browser} :
  chaptersBG (bootstrap_chapters unindexed_chapters) = Started unindexed_start ∧
  unindexed_segment ∈ Chapters.observed unindexed_start ∧
  current_count unindexed_start = 1 ∧
  truthy (getAttribute unindexed_segment "data-bg") = true ∧
  current_count (Chapters.on_entry unindexed_start (entered unindexed_segment)) = 0 ∧
  dataset_active (Chapters.on_entry unindexed_start (entered unindexed_segment)) = Some "".
Proof.
  split; [reflexivity|]. split; [right; left|]. by vm_compute.
Qed.

(** C6 as stated fails: the marker without data-idx is observed, has an
    image, and once it enters no panel is current. *)
Lemma unindexed_marker_leaves_no_panel_current :
  chaptersBG (bootstrap_chapters unindexed_chapters) = Started unindexed_start ∧
  unindexed_segment ∈ Chapters.observed unindexed_start ∧
  current_count unindexed_start = 1 ∧
  truthy (getAttribute unindexed_segment "data-bg") = true ∧
  current_count (Chapters.on_entry unindexed_start (entered unindexed_segment)) = 0 ∧
  dataset_active (Chapters.on_entry unindexed_start (entered unindexed_segment)) = Some "".
Proof. exact unindexed_marker_in_any_browser. Qed.

(** C6, amended. [setActivePanel] is idempotent.  After a processed entry
    the block's data-active is the marker's data-idx (the empty string if
    it has none) and the current panels are exactly the panels with that
    data-idx: a panel carries is-active if and only if its data-idx, which
    the entry leaves as it was, equals the marker's; so one panel is
    current when one panel carries the marker's index.  When the markers
    are synthesized from panels without an index and the block names no
    active panel, the first panel is current after set-up and exactly one
    panel is current then and after every sequence of entries for observed
    markers. *)
Theorem one_panel_current_when_indexed {B : Browser} :
  (∀ (idx : string) (st : Chapters.State),
     Chapters.setActivePanel idx (Chapters.setActivePanel idx st) =
     Chapters.setActivePanel idx st) ∧
  (∀ (st : Chapters.State) (e : Entry),
     isIntersecting e = true →
     truthy (getAttribute (target e) "data-bg") = true →
     let st' := Chapters.on_entry st e in
     dataset_active st' = Some (marker_idx (target e)) ∧
     current_flags st' =
       (λ p, bool_decide (getAttribute p "data-idx" = Some (marker_idx (target e))))
         <$> Chapters.panels st ∧
     (∀ i p', Chapters.panels st' !! i = Some p' →
        ∃ p, Chapters.panels st !! i = Some p ∧
             getAttribute p' "data-idx" = getAttribute p "data-idx" ∧
             (is_active p' = true ↔
              getAttribute p' "data-idx" = Some (marker_idx (target e)))) ∧
     length (Chapters.panels st') = length (Chapters.panels st) ∧
     current_count st' = panels_indexed (marker_idx (target e)) (Chapters.panels st) ∧
     (panels_indexed (marker_idx (target e)) (Chapters.panels st) = 1 →
      current_count st' = 1)) ∧
  (∀ (c : ChaptersRoot) (st : Chapters.State) (es : list Entry),
     chaptersBG c = Started st →
     c_markers c = [] →
     Forall (λ p, truthy (getAttribute p "data-idx") = false) (c_panels c) →
     truthy (getAttribute (c_root c) "data-active") = false →
     Forall (λ e, target e ∈ Chapters.observed st) es →
     dataset_active st = Some "1" ∧
     head (current_flags st) = Some true ∧
     current_count st = 1 ∧
     current_count (Chapters.callback st es) = 1).
Proof.
  split; [exact setActivePanel_idem|]. split.
  - intros st e Hi Hbg st'. subst st'.
    destruct (chapters_on_entry_panel st e Hi Hbg) as (st0 & -> & Hpanels & _).
    split; [apply setActivePanel_current|].
    split; [by rewrite (proj2 (setActivePanel_current _ _)), Hpanels|].
    split; [|split; [|split]].
    + intros i p' Hp'. cbn [Chapters.panels Chapters.setActivePanel] in Hp'.
      rewrite Hpanels, list_lookup_fmap in Hp'.
      destruct (Chapters.panels st !! i) as [p|] eqn:Hp; [|discriminate].
      injection Hp' as <-. exists p. split; [done|].
      unfold Chapters.toggle_panel. rewrite getAttribute_toggle. split; [done|].
      unfold is_active. rewrite contains_toggle. apply bool_decide_eq_true.
    + cbn [Chapters.panels Chapters.setActivePanel]. by rewrite length_fmap, Hpanels.
    + by rewrite setActivePanel_count, Hpanels.
    + intros Hone. by rewrite setActivePanel_count, Hpanels.
  - intros c st es Hst Hm Hps Hroot Hes.
    destruct (chaptersBG_synthesized c st Hst Hm Hps Hroot) as (Hsyn & Hc & Hh & Hd).
    repeat split; try assumption.
    by apply (synthesized_callback (length (c_panels c))).
Qed.

(** The last part, on three bare panels with two synthesized markers
    entering. *)
Lemma one_panel_current_when_indexed_witness :
  chaptersBG bare_chapters = Started bare_start ∧
  c_markers bare_chapters = [] ∧
  Forall (λ p, truthy (getAttribute p "data-idx") = false) (c_panels bare_chapters) ∧
  truthy (getAttribute (c_root bare_chapters) "data-active") = false ∧
  Forall (λ e, target e ∈ Chapters.observed bare_start) bare_entries ∧
  current_count (Chapters.callback bare_start bare_entries) = 1.
Proof.
  assert (H1 : chaptersBG bare_chapters = Started bare_start) by reflexivity.
  assert (H2 : c_markers bare_chapters = []) by reflexivity.
  assert (H3 : Forall (λ p, truthy (getAttribute p "data-idx") = false)
                 (c_panels bare_chapters)).
  { repeat constructor. }
  assert (H4 : truthy (getAttribute (c_root bare_chapters) "data-active") = false)
    by reflexivity.
  assert (H5 : Forall (λ e, target e ∈ Chapters.observed bare_start) bare_entries).
  { constructor; [right; right; left|]. constructor; [right; left|]. constructor. }
  refine (conj H1 (conj H2 (conj H3 (conj H4 (conj H5 _))))).
  exact (proj2 (proj2 (proj2
    (proj2 (proj2 one_panel_current_when_indexed)
       bare_chapters bare_start bare_entries H1 H2 H3 H4 H5)))).
Defined.

Example bare_entries_flags {B : Browser} :
  current_flags (Chapters.callback bare_start bare_entries) = [false; true; false].
Proof. by vm_compute. Qed.

(** ** One active layer *)

Lemma layers_ok_exactly_one (a b : Element) :
  is_active a = true → is_active b = false → exactly_one_active a b.
Proof. unfold exactly_one_active. by intros -> ->. Qed.



















Example scripted_layers_page_seeded : authored_layers_seeded both_variants_page.
Proof.
  split.
  - intros r Hr. discriminate Hr.
  - intros c Hc. injection Hc as <-. split; intros x Hx; discriminate Hx.
Qed.

(** ** Marker heights *)

(** Every marker [globalBG] observes has an inline height. *)
Lemma globalBG_observed_height {B : Browser} (d : Document) (st : Global.State) :
  globalBG d = Some st →
  Forall (λ m, truthy_string (style_get m "height") = true) (Global.observed st).
Proof.
  intros Hst. unfold globalBG in Hst.
  destruct (global_bg d) as [r|]; [|discriminate].
  destruct (bg_chapter d) as [|m ms]; [discriminate|].
  destruct (g_bgA r), (g_bgB r); try discriminate.
  injection Hst as <-.
  change (Forall (λ m, truthy_string (style_get m "height") = true)
            (healthy_hitbox <$> (m :: ms))).
  apply Forall_fmap, Forall_forall. intros x _. simpl.
  unfold healthy_hitbox.
  destruct (truthy_string (style_get x "height")) eqn:Hx; [exact Hx|].
  by rewrite style_get_set.
Qed.

(** Every marker [chaptersBG] synthesizes has the inline height 140vh. *)
Lemma synthesize_marker_height (i : nat) (p : Element) :
  style_get (synthesize_marker i p) "height" = "140vh".
Proof. unfold synthesize_marker. apply style_get_set. Qed.

(** C8 (the code departs from it). [globalBG] gives a marker without an
    inline height 120px before observing it, and the markers [chaptersBG]
    synthesizes get 140vh; the markers the author wrote in a pinned block
    are observed as they are.  On the block with segments 1 and 2, both
    without a height, the observed markers are these two, unchanged. *)
Theorem authored_chapter_markers_keep_no_height :
  style_get black_marker "height" = "" ∧
  Forall (λ m, style_get m "height" = "120px") (Global.observed global_start) ∧
  style_get segment1 "height" = "" ∧
  chaptersBG (bootstrap_chapters shared_image_chapters) = Started chapters_start ∧
  Chapters.observed chapters_start = [segment1; segment2] ∧
  Forall (λ m, style_get m "height" = "") (Chapters.observed chapters_start).
Proof.
  split; [reflexivity|]. split; [by repeat constructor|].
  split; [reflexivity|]. split; [reflexivity|]. split; [reflexivity|].
  by repeat constructor.
Qed.

(** ** Reduced motion *)

(** C9. With the reduced-motion preference set, [scrollDrivenBackground]
    creates no observer; whatever notifications the page's observers then
    get, the engine stays as it started: the document as it was found, no
    closure of either variant, no marker observed and no image fetched. *)
Theorem reduced_motion_engine_never_runs {B : Browser} (d : Document) (ns : list Notification) :
  run (scrollDrivenBackground true d) ns = mkEngine d None None ∧
  engine_observed (run (scrollDrivenBackground true d) ns) = [] ∧
  engine_preloaded (run (scrollDrivenBackground true d) ns) = [].
Proof.
  assert (H : run (scrollDrivenBackground true d) ns = mkEngine d None None).
  { unfold run, scrollDrivenBackground.
    induction ns as [|n ns IH]; simpl; [done|].
    by destruct n. }
  by rewrite H.
Qed.

(** * Further properties of the script *)

(** ** Set-up of the global variant *)

Lemma healthy_hitbox_attribute (m : Element) (name : string) :
  getAttribute (healthy_hitbox m) name = getAttribute m name.
Proof. unfold healthy_hitbox. by destruct (truthy_string _). Qed.

Lemma globalBG_Some {B : Browser} (d : Document) (r : GlobalRoot) (a b m : Element) (ms : list Element) :
  global_bg d = Some r → g_bgA r = Some a → g_bgB r = Some b →
  bg_chapter d = m :: ms →
  globalBG d =
    Some (let st := initFirstBG (m :: ms) (Global.mkState a b (g_overlay r) true [] []) in
          Global.mkState (Global.layerA st) (Global.layerB st) (Global.overlay st)
            (Global.useA st) (healthy_hitbox <$> (m :: ms)) (Global.preloaded st)).
Proof. intros Hr Ha Hb Hm. unfold globalBG. by rewrite Hr, Hm, Ha, Hb. Qed.

(** X1. When [globalBG] starts, layer B, the overlay and [useA] are as
    found, every marker is observed, and only the first marker is
    consulted for the first paint: if it has an image, that image is
    assigned to layer A (for a plain URL layer A then shows it; in any
    case its classes and attributes stay) and it is the one fetch started;
    if it has none, layer A is left as it was and nothing is fetched,
    whatever the later markers carry. *)
Theorem globalBG_first_paint {B : Browser}
    (d : Document) (r : GlobalRoot) (a b m : Element) (ms : list Element) :
  global_bg d = Some r → g_bgA r = Some a → g_bgB r = Some b →
  bg_chapter d = m :: ms →
  ∃ st, globalBG d = Some st ∧
        Global.layerB st = b ∧
        Global.overlay st = g_overlay r ∧
        Global.useA st = true ∧
        Global.observed st = healthy_hitbox <$> (m :: ms) ∧
        classList (Global.layerA st) = classList a ∧
        attributes (Global.layerA st) = attributes a ∧
        (∀ url, getAttribute m "data-bg" = Some url → url ≠ "" →
                Global.layerA st = set_backgroundImage url a ∧
                backgroundImage (Global.layerA st) =
                  default (backgroundImage a) (css_image url) ∧
                (plain_url url = true →
                 Global.layerA st = style_set "background-image" (serialized_url url) a) ∧
                Global.preloaded st = [url]) ∧
        (truthy (getAttribute m "data-bg") = false →
         Global.layerA st = a ∧ Global.preloaded st = []).
Proof.
  intros Hr Ha Hb Hm. eexists. split; [by apply (globalBG_Some d r a b m ms)|].
  unfold initFirstBG.
  destruct (truthy (getAttribute m "data-bg")) eqn:Ht; cbn.
  - do 4 (split; [reflexivity|]).
    split; [apply set_backgroundImage_frame|].
    split; [apply set_backgroundImage_frame|]. split; [|discriminate].
    intros url Hu Hne. rewrite Hu. cbn.
    split; [reflexivity|]. split; [apply backgroundImage_set|].
    split; [apply set_backgroundImage_plain|].
    unfold preload, truthy_string. by rewrite bool_decide_eq_true_2.
  - do 6 (split; [reflexivity|]). split; [|done].
    intros url Hu Hne. rewrite Hu in Ht. cbn in Ht.
    unfold truthy_string in Ht. by rewrite bool_decide_eq_true_2 in Ht.
Qed.

Lemma globalBG_first_paint_witness :
  global_bg (bootstrap two_section_page) =
    Some (mkGlobalRoot (Some (el "g-bg g-bgA is-active")) (Some (el "g-bg g-bgB"))
            (Some (el "g-overlay"))) ∧
  bg_chapter (bootstrap two_section_page) = [black_marker; white_marker] ∧
  getAttribute black_marker "data-bg" = Some "black.jpeg" ∧
  "black.jpeg" ≠ "" ∧
  plain_url "black.jpeg" = true ∧
  ∃ st, globalBG (bootstrap two_section_page) = Some st ∧
        Global.layerB st = el "g-bg g-bgB" ∧
        backgroundImage (Global.layerA st) = serialized_url "black.jpeg" ∧
        Global.preloaded st = ["black.jpeg"].
Proof.
  assert (H1 : global_bg (bootstrap two_section_page) =
    Some (mkGlobalRoot (Some (el "g-bg g-bgA is-active")) (Some (el "g-bg g-bgB"))
            (Some (el "g-overlay")))) by reflexivity.
  assert (H2 : bg_chapter (bootstrap two_section_page) = [black_marker; white_marker])
    by reflexivity.
  assert (H3 : getAttribute black_marker "data-bg" = Some "black.jpeg") by reflexivity.
  assert (H4 : "black.jpeg" ≠ "") by discriminate.
  assert (H5 : plain_url "black.jpeg" = true) by reflexivity.
  refine (conj H1 (conj H2 (conj H3 (conj H4 (conj H5 _))))).
  destruct (globalBG_first_paint (bootstrap two_section_page) _ _ _ _ _
              H1 eq_refl eq_refl H2) as (st & Hst & HB & _ & _ & _ & _ & _ & Hpaint & _).
  destruct (Hpaint "black.jpeg" H3 H4) as (_ & _ & HA & HP).
  refine (ex_intro _ st (conj Hst (conj HB (conj _ HP)))).
  rewrite (HA H5). reflexivity.
Defined.

(** X2. No flash at the start: when the first marker has an image that
    the browser reads back with the URL in it, as it does every plain URL,
    the marker's own entry right after set-up finds that image on the
    active layer and swaps nothing (layers, [useA] and fetches stay as
    set-up left them). *)
Theorem first_marker_entry_swaps_nothing {B : Browser}
    (d : Document) (st : Global.State) (m : Element) (ms : list Element) (url : string) :
  globalBG d = Some st →
  bg_chapter d = m :: ms →
  getAttribute m "data-bg" = Some url →
  url ≠ "" →
  painted_back url →
  entered (healthy_hitbox m) ∈ (entered <$> Global.observed st) ∧
  global_same_layers st (Global.on_entry st (entered (healthy_hitbox m))).
Proof.
  intros Hst Hm Hu Hne (v & Hv & Hin). unfold globalBG in Hst. rewrite Hm in Hst.
  destruct (global_bg d) as [r|]; [|discriminate].
  destruct (g_bgA r) as [a|]; [|discriminate].
  destruct (g_bgB r) as [b|]; [|discriminate].
  injection Hst as <-. split.
  - cbn [Global.observed]. rewrite !fmap_cons. left.
  - apply (global_shown_no_swap _ (Some url)).
    + cbn [target entered]. by rewrite healthy_hitbox_attribute.
    + intros _. unfold initFirstBG. rewrite Hu. cbn.
      unfold truthy_string. rewrite bool_decide_eq_true_2 by done. cbn.
      by rewrite backgroundImage_set, Hv.
Qed.

Lemma first_marker_entry_swaps_nothing_witness :
  globalBG (bootstrap two_section_page) = Some global_start ∧
  bg_chapter (bootstrap two_section_page) = [black_marker; white_marker] ∧
  getAttribute black_marker "data-bg" = Some "black.jpeg" ∧
  "black.jpeg" ≠ "" ∧
  painted_back "black.jpeg" ∧
  global_same_layers global_start (Global.on_entry global_start black_entered).
Proof.
  assert (H1 : globalBG (bootstrap two_section_page) = Some global_start) by reflexivity.
  assert (H2 : bg_chapter (bootstrap two_section_page) = [black_marker; white_marker])
    by reflexivity.
  assert (H3 : getAttribute black_marker "data-bg" = Some "black.jpeg") by reflexivity.
  assert (H4 : "black.jpeg" ≠ "") by discriminate.
  assert (H5 : painted_back "black.jpeg").
  { exists (serialized_url "black.jpeg"). split; reflexivity. }
  refine (conj H1 (conj H2 (conj H3 (conj H4 (conj H5 _))))).
  exact (proj2 (first_marker_entry_swaps_nothing (bootstrap two_section_page)
                  global_start black_marker [white_marker] "black.jpeg" H1 H2 H3 H4 H5)).
Defined.

(** X3. [globalBG] does not start exactly when the page has no
    [.global-bg], or no marker, or a [.global-bg] that lacks one of the
    two layers.  On a page without [.global-bg] of its own, [bootstrap]
    creates one, and the variant then starts exactly when there is a
    marker. *)
Theorem globalBG_starts_iff {B : Browser} (d : Document) :
  (globalBG d = None ↔
     global_bg d = None ∨ bg_chapter d = [] ∨
     ∃ r, global_bg d = Some r ∧ (g_bgA r = None ∨ g_bgB r = None)) ∧
  (global_bg d = None → (globalBG (bootstrap d) = None ↔ bg_chapter d = [])).
Proof.
  split.
  - unfold globalBG. destruct (global_bg d) as [r|] eqn:Hr.
    + destruct (bg_chapter d) as [|m ms] eqn:Hm.
      * split; [intros _; right; by left | done].
      * destruct (g_bgA r) as [a|] eqn:Ha, (g_bgB r) as [b|] eqn:Hb; split;
          try discriminate; try done;
          try (intros _; right; right; exists r; split; [done|]; by auto).
        intros [?|[?|(r' & [= <-] & [?|?])]]; congruence.
    + split; [intros _; by left | done].
  - intros Hnone. unfold globalBG, bootstrap. cbn. rewrite Hnone. cbn.
    destruct (bg_chapter d); split; done.
Qed.

(** ** Entries that change nothing, entries that change the tint *)

Lemma global_left_ignored {B : Browser} (st : Global.State) (e : Entry) :
  isIntersecting e = false → Global.on_entry st e = st.
Proof. intros H. unfold Global.on_entry. by rewrite H. Qed.

Lemma chapters_left_ignored {B : Browser} (st : Chapters.State) (e : Entry) :
  isIntersecting e = false → Chapters.on_entry st e = st.
Proof. intros H. unfold Chapters.on_entry. by rewrite H. Qed.

(** X4. Leaving the trigger band changes nothing: a notification all of
    whose entries are not intersecting leaves the closure of either
    variant exactly as it was. *)
Theorem leaving_changes_nothing {B : Browser}
    (g : Global.State) (c : Chapters.State) (es : list Entry) :
  Forall (λ e, isIntersecting e = false) es →
  Global.callback g es = g ∧ Chapters.callback c es = c.
Proof.
  unfold Global.callback, Chapters.callback.
  induction 1 as [|e es He Hes [IHg IHc]]; [done|]. cbn.
  by rewrite global_left_ignored, chapters_left_ignored.
Qed.

Lemma leaving_changes_nothing_witness :
  Forall (λ e, isIntersecting e = false) left_entries ∧
  Global.callback global_start left_entries = global_start ∧
  Chapters.callback chapters_start left_entries = chapters_start.
Proof.
  assert (H : Forall (λ e, isIntersecting e = false) left_entries).
  { repeat constructor. }
  exact (conj H (leaving_changes_nothing global_start chapters_start left_entries H)).
Defined.



(** ** What a swap touches *)

(** The two layers after a swap, by the value [useA] had. *)
Lemma global_swap_layers {B : Browser} (st : Global.State) (e : Entry) (url : string) :
  isIntersecting e = true →
  getAttribute (target e) "data-bg" = Some url →
  url ≠ "" →
  includes (backgroundImage (Global.active st)) url = false →
  global_layer (Global.useA st) (Global.on_entry st e) =
    classList_remove "is-active" (Global.active st) ∧
  global_layer (negb (Global.useA st)) (Global.on_entry st e) =
    classList_add "is-active" (set_backgroundImage url (Global.inactive st)) ∧
  Global.preloaded (Global.on_entry st e) = (Global.preloaded st ++ [url])%list.
Proof.
  intros Hi Hu Hne Hinc.
  destruct (global_swap_effects st e url Hi Hu Hne Hinc)
    as (HU & HA & HI & _ & _ & _ & _ & HP).
  unfold global_layer, Global.active, Global.inactive in *. rewrite HU in HA, HI.
  destruct (Global.useA st); cbn [negb] in *; by rewrite HA, HI, HP.
Qed.

Lemma chapters_swap_layers {B : Browser} (st : Chapters.State) (e : Entry) (url : string) :
  isIntersecting e = true →
  getAttribute (target e) "data-bg" = Some url →
  url ≠ "" →
  includes (backgroundImage (Chapters.active st)) url = false →
  chapters_layer (Chapters.useA st) (Chapters.on_entry st e) =
    classList_remove "is-active" (Chapters.active st) ∧
  chapters_layer (negb (Chapters.useA st)) (Chapters.on_entry st e) =
    classList_add "is-active" (set_backgroundImage url (Chapters.inactive st)) ∧
  Chapters.preloaded (Chapters.on_entry st e) = (Chapters.preloaded st ++ [url])%list.
Proof.
  intros Hi Hu Hne Hinc.
  rewrite (chapters_on_entry_swap st e url Hi Hu Hne Hinc).
  assert (Hp : preload url (Chapters.preloaded st) = (Chapters.preloaded st ++ [url])%list).
  { unfold preload, truthy_string. by rewrite bool_decide_eq_true_2. }
  generalize (marker_idx (target e)). intros idx.
  clear Hi Hu Hinc. unfold chapters_layer.
  destruct st as [c a b ps [|] obs pre]; chapters_fields;
    cbv [Chapters.preloaded] in Hp; by rewrite Hp.
Qed.

(** An entry either swaps or leaves the layers alone. *)
Lemma global_entry_cases {B : Browser} (st : Global.State) (e : Entry) :
  global_same_layers st (Global.on_entry st e) ∨
  ∃ url, isIntersecting e = true ∧ getAttribute (target e) "data-bg" = Some url ∧
         url ≠ "" ∧ includes (backgroundImage (Global.active st)) url = false.
Proof.
  destruct (isIntersecting e) eqn:Hi.
  2:{ left. rewrite global_left_ignored by done. by repeat split. }
  destruct (truthy (getAttribute (target e) "data-bg")) eqn:Ht.
  2:{ left. rewrite global_on_entry_ignored by done. by repeat split. }
  destruct (truthy_Some _ Ht) as (url & Hu & Hne).
  destruct (includes (backgroundImage (Global.active st)) url) eqn:Hinc.
  - left. apply (global_shown_no_swap _ (Some url)); [done|]. by intros _.
  - right. by exists url.
Qed.

Lemma chapters_entry_cases {B : Browser} (st : Chapters.State) (e : Entry) :
  chapters_same_layers st (Chapters.on_entry st e) ∨
  ∃ url, isIntersecting e = true ∧ getAttribute (target e) "data-bg" = Some url ∧
         url ≠ "" ∧ includes (backgroundImage (Chapters.active st)) url = false.
Proof.
  destruct (isIntersecting e) eqn:Hi.
  2:{ left. rewrite chapters_left_ignored by done. by repeat split. }
  destruct (truthy (getAttribute (target e) "data-bg")) eqn:Ht.
  2:{ left. unfold Chapters.on_entry. rewrite Hi, Ht. by repeat split. }
  destruct (truthy_Some _ Ht) as (url & Hu & Hne).
  destruct (includes (backgroundImage (Chapters.active st)) url) eqn:Hinc.
  - left. apply (chapters_shown_no_swap _ (Some url)); [done|]. by intros _.
  - right. by exists url.
Qed.

(** X6. The active layer is never written in place: whatever the entry,
    the layer that was active before it keeps its inline style and its
    attributes; a swap only takes the class is-active from it.  Both
    variants. *)
Theorem active_layer_never_repainted {B : Browser} :
  (∀ (st : Global.State) (e : Entry),
     let before := Global.active st in
     let after := global_layer (Global.useA st) (Global.on_entry st e) in
     style after = style before ∧ attributes after = attributes before ∧
     (after = before ∨ after = classList_remove "is-active" before)) ∧
  (∀ (st : Chapters.State) (e : Entry),
     let before := Chapters.active st in
     let after := chapters_layer (Chapters.useA st) (Chapters.on_entry st e) in
     style after = style before ∧ attributes after = attributes before ∧
     (after = before ∨ after = classList_remove "is-active" before)).
Proof.
  split.
  - intros st e before after. subst before after.
    destruct (global_entry_cases st e) as [(HA & HB & HU & _)|(url & Hi & Hu & Hne & Hinc)].
    + assert (H : global_layer (Global.useA st) (Global.on_entry st e) = Global.active st).
      { unfold global_layer, Global.active. by rewrite HA, HB. }
      rewrite H. auto.
    + destruct (global_swap_layers st e url Hi Hu Hne Hinc) as (-> & _). auto.
  - intros st e before after. subst before after.
    destruct (chapters_entry_cases st e) as [(HA & HB & HU & _)|(url & Hi & Hu & Hne & Hinc)].
    + assert (H : chapters_layer (Chapters.useA st) (Chapters.on_entry st e) =
                  Chapters.active st).
      { unfold chapters_layer, Chapters.active. by rewrite HA, HB. }
      rewrite H. auto.
    + destruct (chapters_swap_layers st e url Hi Hu Hne Hinc) as (-> & _). auto.
Qed.

(** ** Images painted and images fetched *)

Lemma painted_or_initial_mono {B : Browser}
    (img0 : string) (k k' : list string) (e e' : Element) :
  backgroundImage e' = backgroundImage e →
  painted_or_initial img0 k e → painted_or_initial img0 (k ++ k') e'.
Proof.
  intros He [H|(u & Hu & H)]; [left; congruence|].
  right. exists u. split; [set_solver | congruence].
Qed.

Lemma painted_or_initial_last {B : Browser}
    (img0 url : string) (k : list string) (e e' : Element) :
  painted_or_initial img0 k e →
  e' = classList_add "is-active" (set_backgroundImage url e) →
  painted_or_initial img0 (k ++ [url]) e'.
Proof.
  intros He ->.
  destruct (css_image url) as [v|] eqn:Hv.
  - right. exists url. split; [set_solver|].
    by rewrite backgroundImage_add, backgroundImage_set, Hv.
  - apply (painted_or_initial_mono _ _ _ e); [|exact He].
    by rewrite backgroundImage_add, backgroundImage_set, Hv.
Qed.

Lemma global_paints_logged_step {B : Browser} (st0 st : Global.State) (e : Entry) :
  global_paints_logged st0 st → global_paints_logged st0 (Global.on_entry st e).
Proof.
  intros (k & Hk & HA & HB).
  destruct (global_entry_cases st e) as [(EA & EB & _ & EP)|(url & Hi & Hu & Hne & Hinc)].
  - exists k. rewrite EA, EB, EP. by repeat split.
  - destruct (global_swap_layers st e url Hi Hu Hne Hinc) as (Hold & Hnew & HP).
    exists (k ++ [url])%list. rewrite HP, Hk, <- (assoc_L (++)).
    split; [done|]. unfold global_layer, Global.active, Global.inactive in Hold, Hnew.
    destruct (Global.useA st); cbn [negb] in Hold, Hnew; split;
      first [ by eapply painted_or_initial_last; [eassumption|]
            | eapply painted_or_initial_mono; [|eassumption]; by rewrite Hold ].
Qed.

Lemma chapters_paints_logged_step {B : Browser} (st0 st : Chapters.State) (e : Entry) :
  chapters_paints_logged st0 st → chapters_paints_logged st0 (Chapters.on_entry st e).
Proof.
  intros (k & Hk & HA & HB).
  destruct (chapters_entry_cases st e) as [(EA & EB & _ & EP)|(url & Hi & Hu & Hne & Hinc)].
  - exists k. rewrite EA, EB, EP. by repeat split.
  - destruct (chapters_swap_layers st e url Hi Hu Hne Hinc) as (Hold & Hnew & HP).
    exists (k ++ [url])%list. rewrite HP, Hk, <- (assoc_L (++)).
    split; [done|]. unfold chapters_layer, Chapters.active, Chapters.inactive in Hold, Hnew.
    destruct (Chapters.useA st); cbn [negb] in Hold, Hnew; split;
      first [ by eapply painted_or_initial_last; [eassumption|]
            | eapply painted_or_initial_mono; [|eassumption]; by rewrite Hold ].
Qed.

(** X7. No image is painted without its URL being fetched: over any
    notification, from any state, the log of fetches only grows, and each
    layer ends showing either what it showed at the start or what the
    browser kept of [`url('${u}')`] for a URL [u] fetched during that
    notification.  For a plain URL that is the URL itself; a URL with an
    escape is fetched as written and painted as the CSS parser reads it.
    Both variants. *)
Theorem every_painted_image_was_fetched {B : Browser} :
  (∀ (st : Global.State) (es : list Entry),
     global_paints_logged st (Global.callback st es)) ∧
  (∀ (st : Chapters.State) (es : list Entry),
     chapters_paints_logged st (Chapters.callback st es)) ∧
  (∀ u, plain_url u = true → css_image u = Some (serialized_url u)) ∧
  css_image "images\hero.jpg" = Some (serialized_url "imageshero.jpg").
Proof.
  split; [|split; [|split; [exact css_image_plain | reflexivity]]].
  - intros st es. unfold Global.callback.
    assert (H0 : global_paints_logged st st).
    { exists []. rewrite app_nil_r. repeat split; by left. }
    revert H0. generalize st at 2 4. revert st.
    induction es as [|e es IH]; intros st0 st H; cbn; [done|].
    by apply IH, global_paints_logged_step.
  - intros st es. unfold Chapters.callback.
    assert (H0 : chapters_paints_logged st st).
    { exists []. rewrite app_nil_r. repeat split; by left. }
    revert H0. generalize st at 2 4. revert st.
    induction es as [|e es IH]; intros st0 st H; cbn; [done|].
    by apply IH, chapters_paints_logged_step.
Qed.

(** ** Two swaps in a row *)

(** X8. Two swaps alternate the layers: when an entered marker brings a
    plain URL [u] that is not on the active layer and the next one a plain
    URL [v] that does not occur in the style text read back for [u], the
    layer active at the start is active again and shows [v], the other
    layer keeps [u] without the class is-active, and the fetches started
    are [u] then [v]. *)
Theorem two_swaps_alternate {B : Browser}
    (st : Global.State) (e1 e2 : Entry) (u v : string) :
  isIntersecting e1 = true → getAttribute (target e1) "data-bg" = Some u → u ≠ "" →
  isIntersecting e2 = true → getAttribute (target e2) "data-bg" = Some v → v ≠ "" →
  plain_url u = true → plain_url v = true →
  includes (backgroundImage (Global.active st)) u = false →
  includes (serialized_url u) v = false →
  let st2 := Global.on_entry (Global.on_entry st e1) e2 in
  Global.useA st2 = Global.useA st ∧
  backgroundImage (Global.active st2) = serialized_url v ∧
  is_active (Global.active st2) = true ∧
  backgroundImage (Global.inactive st2) = serialized_url u ∧
  is_active (Global.inactive st2) = false ∧
  Global.preloaded st2 = (Global.preloaded st ++ [u; v])%list.
Proof.
  intros Hi1 Hu1 Hne1 Hi2 Hu2 Hne2 Hpu Hpv Hinc1 Hinc2 st2. subst st2.
  destruct (global_swap_effects st e1 u Hi1 Hu1 Hne1 Hinc1)
    as (HU1 & _ & _ & HB1 & _ & _ & _ & HP1).
  rewrite (css_image_plain u Hpu) in HB1. cbn [default] in HB1.
  assert (Hinc2' : includes (backgroundImage (Global.active (Global.on_entry st e1))) v
                   = false) by by rewrite HB1.
  destruct (global_swap_effects _ e2 v Hi2 Hu2 Hne2 Hinc2')
    as (HU2 & _ & HI2 & HB2 & HA2 & HN2 & HK2 & HP2).
  rewrite (css_image_plain v Hpv) in HB2. cbn [default] in HB2.
  rewrite HU2, HU1, negb_involutive, HB2, HA2, HN2, HK2, HB1, HP2, HP1.
  rewrite <- (assoc_L (++)). by repeat split.
Qed.

Lemma two_swaps_alternate_witness :
  isIntersecting white_entered = true ∧
  getAttribute (target white_entered) "data-bg" = Some "white.jpeg" ∧
  "white.jpeg" ≠ "" ∧
  isIntersecting black_entered = true ∧
  getAttribute (target black_entered) "data-bg" = Some "black.jpeg" ∧
  "black.jpeg" ≠ "" ∧
  plain_url "white.jpeg" = true ∧ plain_url "black.jpeg" = true ∧
  includes (backgroundImage (Global.active global_start)) "white.jpeg" = false ∧
  includes (serialized_url "white.jpeg") "black.jpeg" = false ∧
  Global.preloaded (Global.on_entry (Global.on_entry global_start white_entered)
                      black_entered) =
    ["black.jpeg"; "white.jpeg"; "black.jpeg"].
Proof.
  assert (H1 : isIntersecting white_entered = true) by reflexivity.
  assert (H2 : getAttribute (target white_entered) "data-bg" = Some "white.jpeg")
    by reflexivity.
  assert (H3 : "white.jpeg" ≠ "") by discriminate.
  assert (H4 : isIntersecting black_entered = true) by reflexivity.
  assert (H5 : getAttribute (target black_entered) "data-bg" = Some "black.jpeg")
    by reflexivity.
  assert (H6 : "black.jpeg" ≠ "") by discriminate.
  assert (P1 : plain_url "white.jpeg" = true) by reflexivity.
  assert (P2 : plain_url "black.jpeg" = true) by reflexivity.
  assert (H7 : includes (backgroundImage (Global.active global_start)) "white.jpeg"
               = false) by reflexivity.
  assert (H8 : includes (serialized_url "white.jpeg") "black.jpeg" = false) by reflexivity.
  refine (conj H1 (conj H2 (conj H3 (conj H4 (conj H5 (conj H6
            (conj P1 (conj P2 (conj H7 (conj H8 _)))))))))).
  exact (proj2 (proj2 (proj2 (proj2 (proj2
    (two_swaps_alternate global_start white_entered black_entered
       "white.jpeg" "black.jpeg" H1 H2 H3 H4 H5 H6 P1 P2 H7 H8)))))).
Defined.

(** ** What the callbacks leave alone *)

Lemma attributes_toggle (tok : string) (force : bool) (e : Element) :
  attributes (classList_toggle tok force e) = attributes e ∧
  style (classList_toggle tok force e) = style e.
Proof. by destruct force. Qed.

Lemma chapters_on_entry_keeps {B : Browser} (st : Chapters.State) (e : Entry) :
  Chapters.observed (Chapters.on_entry st e) = Chapters.observed st ∧
  attributes <$> Chapters.panels (Chapters.on_entry st e) =
    attributes <$> Chapters.panels st ∧
  style <$> Chapters.panels (Chapters.on_entry st e) = style <$> Chapters.panels st.
Proof.
  destruct (isIntersecting e) eqn:Hi.
  2:{ by rewrite chapters_left_ignored. }
  destruct (truthy (getAttribute (target e) "data-bg")) eqn:Ht.
  2:{ unfold Chapters.on_entry. by rewrite Hi, Ht. }
  destruct (chapters_on_entry_panel st e Hi Ht) as (st0 & -> & Hp & Ho).
  cbn [Chapters.observed Chapters.panels Chapters.setActivePanel].
  rewrite Ho, Hp, <- !list_fmap_compose.
  split; [done|]. split; apply list_fmap_ext; intros i p _; cbn;
    apply attributes_toggle.
Qed.

Lemma global_on_entry_keeps {B : Browser} (st : Global.State) (e : Entry) :
  Global.observed (Global.on_entry st e) = Global.observed st.
Proof.
  unfold Global.on_entry.
  destruct (isIntersecting e); cbn; [|done].
  destruct (truthy _); cbn; [|done].
  destruct (includes _ _).
  - apply global_set_tint_frame.
  - match goal with |- context [Global.set_tint ?t ?s] =>
      destruct (global_set_tint_frame t s) as (_ & _ & _ & -> & _) end.
    by destruct st as [a b o [|] obs pre].
Qed.

(** X9. The callbacks never detach an observer and never edit a panel
    beyond its class list: over any notification the observed markers are
    the same, and the panels are as many, with the same attributes and the
    same inline styles, in the same order. *)
Theorem callbacks_keep_markers_and_panels {B : Browser}
    (g : Global.State) (c : Chapters.State) (es : list Entry) :
  Global.observed (Global.callback g es) = Global.observed g ∧
  Chapters.observed (Chapters.callback c es) = Chapters.observed c ∧
  attributes <$> Chapters.panels (Chapters.callback c es) =
    attributes <$> Chapters.panels c ∧
  style <$> Chapters.panels (Chapters.callback c es) = style <$> Chapters.panels c ∧
  length (Chapters.panels (Chapters.callback c es)) = length (Chapters.panels c).
Proof.
  unfold Global.callback, Chapters.callback.
  revert g c. induction es as [|e es IH]; intros g c; cbn; [done|].
  destruct (IH (Global.on_entry g e) (Chapters.on_entry c e)) as (-> & -> & -> & -> & ->).
  destruct (chapters_on_entry_keeps c e) as (-> & Ha & ->).
  rewrite global_on_entry_keeps, Ha. repeat split.
  by rewrite <- (length_fmap attributes), Ha, length_fmap.
Qed.

(** ** Set-up of the pinned variant *)

(** X10. [chaptersBG] does not start exactly when the block has neither a
    marker nor a panel; a block without layers of its own gets both, so
    missing layers never keep it from starting. *)
Theorem chaptersBG_starts_iff (c : ChaptersRoot) :
  chaptersBG c = Returned ↔ c_markers c = [] ∧ c_panels c = [].
Proof.
  rewrite chaptersBG_unfold. cbn zeta.
  destruct (c_markers c) as [|m ms], (c_panels c) as [|p ps]; cbn;
    try destruct (not_a_child _); split; try done; by intros [? ?].
Qed.

Lemma synthesized_marker_bg (i : nat) (p : Element) :
  getAttribute (synthesize_marker i p) "data-bg" =
    (if truthy (getAttribute p "data-bg")
     then getAttribute p "data-bg" else Some (fallback_image i)).
Proof.
  unfold synthesize_marker, getAttribute, style_set, setAttribute; cbn.
  rewrite lookup_insert_eq. unfold js_or, fallback_image.
  destruct (truthy (attributes p !! "data-bg")) eqn:Ht; [|done].
  by destruct (truthy_Some _ Ht) as (s & -> & _).
Qed.

(** X11. When the block has panels and no marker, [chaptersBG] inserts
    one synthesized marker per panel before the node that follows the
    sticky container.  When that node is a child of the block, or there is
    none, it observes the markers in panel order: the marker at position
    [i] is indexed [String(i + 1)], is 140vh high, and carries the panel's
    own image if it has one, else black.jpeg at even and white.jpeg at odd
    positions; the panel keeps an index of its own and otherwise gets
    [String(i + 1)].  When that node lies elsewhere, which is so whenever
    the sticky container is a child of the stage and a layer was appended
    to the stage, the first insertion throws: no observer is created, and
    what is left of the attempt is the index of the first panel. *)
Theorem chaptersBG_synthesizes_markers (c : ChaptersRoot) :
  c_markers c = [] → c_panels c ≠ [] →
  (not_a_child (afterSticky (ensure_layers c)) = false →
   ∃ st, chaptersBG c = Started st ∧
        length (Chapters.observed st) = length (c_panels c) ∧
        length (Chapters.panels st) = length (c_panels c) ∧
        ∀ i p, c_panels c !! i = Some p →
          ∃ m q, Chapters.observed st !! i = Some m ∧
                 Chapters.panels st !! i = Some q ∧
                 getAttribute m "data-idx" = Some (idx_of i) ∧
                 style_get m "height" = "140vh" ∧
                 getAttribute m "data-bg" =
                   (if truthy (getAttribute p "data-bg")
                    then getAttribute p "data-bg" else Some (fallback_image i)) ∧
                 getAttribute q "data-idx" =
                   (if truthy (getAttribute p "data-idx")
                    then getAttribute p "data-idx" else Some (idx_of i))) ∧
  (not_a_child (afterSticky (ensure_layers c)) = true →
   ∃ p ps, c_panels c = p :: ps ∧
     chaptersBG c = Threw (left_at_first_marker (ensure_layers c)) ∧
     c_panels (left_at_first_marker (ensure_layers c)) = number_panel 0 p :: ps ∧
     c_markers (left_at_first_marker (ensure_layers c)) = [] ∧
     chapters_closure (chaptersBG c) = None) ∧
  (not_a_child (afterSticky (ensure_layers c)) = true ↔
     c_sticky c = StickyInStage false ∨ c_sticky c = StickyNested false ∨
     (c_sticky c = StickyInStage true ∧ (c_bgA c = None ∨ c_bgB c = None))).
Proof.
  intros Hm Hp. split; [|split].
  - intros Hok. rewrite chaptersBG_unfold, Hm, Hok. cbn zeta.
    destruct (c_panels c) as [|p0 ps] eqn:Hps; [done|].
    rewrite bool_decide_eq_true_2 by done. rewrite bool_decide_eq_true_2 by done.
    cbn [andb]. remember (p0 :: ps) as l eqn:Hl.
    assert (Hne : imap synthesize_marker l ≠ []).
    { rewrite Hl. discriminate. }
    destruct (imap synthesize_marker l) as [|m0 ms0] eqn:Hsyn; [done|].
    eexists. split; [reflexivity|].
    cbn [Chapters.observed Chapters.panels Chapters.setActivePanel].
    rewrite <- Hsyn. rewrite length_fmap, !length_imap.
    split; [done|]. split; [done|].
    intros i p Hi.
    exists (synthesize_marker i p),
           (Chapters.toggle_panel (first_panel c) (number_panel i p)).
    split; [by rewrite list_lookup_imap, Hi|].
    split; [by rewrite list_lookup_fmap, list_lookup_imap, Hi|].
    destruct (synthesize_marker_attrs i p) as [_ Hidx].
    split; [exact Hidx|]. split; [apply synthesize_marker_height|]. split.
    + apply synthesized_marker_bg.
    + unfold Chapters.toggle_panel. rewrite getAttribute_toggle. unfold number_panel.
      destruct (truthy (getAttribute p "data-idx")) eqn:Ht; [done|].
      unfold getAttribute, setAttribute; cbn. apply lookup_insert_eq.
  - intros Hthrow. rewrite chaptersBG_unfold, Hm, Hthrow. cbn zeta.
    destruct (c_panels c) as [|p0 ps] eqn:Hps; [done|].
    rewrite bool_decide_eq_true_2 by done. rewrite bool_decide_eq_true_2 by done.
    cbn [andb]. exists p0, ps. split; [done|]. split; [done|].
    unfold left_at_first_marker, ensure_layers. cbn. by rewrite Hps, Hm.
  - unfold afterSticky, ensure_layers. cbn [c_sticky].
    destruct (c_sticky c) as [|[|]|[|]|[|]], (c_bgA c) as [a|], (c_bgB c) as [b|];
      cbn; split; try discriminate; try done;
      try (intros [?|[?|[? ?]]]; discriminate);
      try (intros [?|[?|[? [?|?]]]]; discriminate);
      intros _; auto.
Qed.

Lemma chaptersBG_synthesizes_markers_witness :
  c_markers bare_chapters = [] ∧ c_panels bare_chapters ≠ [] ∧
  not_a_child (afterSticky (ensure_layers bare_chapters)) = false ∧
  c_markers (bootstrap_chapters staged_chapters) = [] ∧
  c_panels (bootstrap_chapters staged_chapters) ≠ [] ∧
  not_a_child (afterSticky (ensure_layers (bootstrap_chapters staged_chapters))) = true ∧
  (∃ st, chaptersBG bare_chapters = Started st ∧
         length (Chapters.observed st) = 3) ∧
  chapters_closure (chaptersBG (bootstrap_chapters staged_chapters)) = None.
Proof.
  assert (H1 : c_markers bare_chapters = []) by reflexivity.
  assert (H2 : c_panels bare_chapters ≠ []) by discriminate.
  assert (H3 : not_a_child (afterSticky (ensure_layers bare_chapters)) = false)
    by reflexivity.
  assert (H4 : c_markers (bootstrap_chapters staged_chapters) = []) by reflexivity.
  assert (H5 : c_panels (bootstrap_chapters staged_chapters) ≠ []) by discriminate.
  assert (H6 : not_a_child
                 (afterSticky (ensure_layers (bootstrap_chapters staged_chapters))) = true)
    by reflexivity.
  refine (conj H1 (conj H2 (conj H3 (conj H4 (conj H5 (conj H6 (conj _ _))))))).
  - destruct (proj1 (chaptersBG_synthesizes_markers bare_chapters H1 H2) H3)
      as (st & Hst & Hlen & _).
    exact (ex_intro _ st (conj Hst Hlen)).
  - destruct (proj1 (proj2 (chaptersBG_synthesizes_markers
                (bootstrap_chapters staged_chapters) H4 H5)) H6)
      as (p & ps & _ & _ & _ & _ & Hnone).
    exact Hnone.
Defined.

(** X12. When the block has markers of its own, [chaptersBG] observes
    exactly these, as they are, and leaves the panels unnumbered: their
    attributes and inline styles are the author's. *)
Theorem chaptersBG_keeps_authored_markers (c : ChaptersRoot) :
  c_markers c ≠ [] →
  ∃ st, chaptersBG c = Started st ∧
        Chapters.observed st = c_markers c ∧
        attributes <$> Chapters.panels st = attributes <$> c_panels c ∧
        style <$> Chapters.panels st = style <$> c_panels c.
Proof.
  intros Hm. rewrite chaptersBG_unfold. cbn zeta.
  destruct (c_markers c) as [|m ms] eqn:Hms; [done|].
  rewrite bool_decide_eq_false_2 by done. cbn [andb].
  eexists. split; [reflexivity|].
  cbn [Chapters.observed Chapters.panels Chapters.setActivePanel].
  rewrite <- !list_fmap_compose.
  split; [done|]. split; apply list_fmap_ext; intros i p _; cbn; apply attributes_toggle.
Qed.

Lemma chaptersBG_keeps_authored_markers_witness :
  c_markers shared_image_chapters ≠ [] ∧
  ∃ st, chaptersBG shared_image_chapters = Started st ∧
        Chapters.observed st = [segment1; segment2].
Proof.
  assert (H : c_markers shared_image_chapters ≠ []) by discriminate.
  refine (conj H _).
  destruct (chaptersBG_keeps_authored_markers shared_image_chapters H)
    as (st & Hst & Hobs & _).
  exact (ex_intro _ st (conj Hst Hobs)).
Defined.

(** X13. The panel current after set-up is the author's choice when the
    block carries a non-empty data-active, and panel "1" otherwise: the
    block's data-active is that index and a panel carries is-active
    exactly when its data-idx equals it. *)
Theorem chaptersBG_first_panel (c : ChaptersRoot) (st : Chapters.State) :
  chaptersBG c = Started st →
  dataset_active st = Some (first_panel c) ∧
  first_panel c =
    (if truthy (getAttribute (c_root c) "data-active")
     then or_empty (getAttribute (c_root c) "data-active") else "1") ∧
  current_flags st =
    (λ p, bool_decide (getAttribute p "data-idx" = Some (first_panel c)))
      <$> Chapters.panels st ∧
  current_count st = panels_indexed (first_panel c) (Chapters.panels st).
Proof.
  intros Hst. destruct (chaptersBG_Started c st Hst) as [_ ->].
  pose proof (setActivePanel_idem (first_panel c)) as Hidem.
  match goal with |- context [Chapters.setActivePanel _ ?s] => set (s0 := s) end.
  split; [apply setActivePanel_current|]. split.
  { unfold first_panel, js_or.
    by destruct (truthy (getAttribute (c_root c) "data-active")). }
  rewrite <- (Hidem s0) at 1 3.
  split; [apply setActivePanel_current | apply setActivePanel_count].
Qed.

Lemma chaptersBG_first_panel_witness :
  chaptersBG (bootstrap_chapters shared_image_chapters) = Started chapters_start ∧
  dataset_active chapters_start = Some "1".
Proof.
  assert (H : chaptersBG (bootstrap_chapters shared_image_chapters) = Started chapters_start)
    by reflexivity.
  exact (conj H (proj1 (chaptersBG_first_panel _ _ H))).
Defined.

(** ** [bootstrap] *)

(** X14. [bootstrap] is non-destructive and idempotent: it keeps the
    markers, a [.global-bg] of the author's and every layer the author
    wrote in the pinned block; after it a [.global-bg] exists; running it
    twice is running it once.  A pinned block with just one layer of its
    own is left with that one layer, and [chaptersBG] then supplies the
    other. *)
Theorem bootstrap_non_destructive (d : Document) :
  bootstrap (bootstrap d) = bootstrap d ∧
  bg_chapter (bootstrap d) = bg_chapter d ∧
  (∀ r, global_bg d = Some r → global_bg (bootstrap d) = Some r) ∧
  (∃ r, global_bg (bootstrap d) = Some r) ∧
  (∀ c, chapters_block d = Some c →
        ∃ c', chapters_block (bootstrap d) = Some c' ∧
              c_root c' = c_root c ∧ c_panels c' = c_panels c ∧
              c_markers c' = c_markers c ∧
              (c_bgA c ≠ None ∨ c_bgB c ≠ None → c' = c) ∧
              (∀ a, c_bgA c = Some a → c_bgA (ensure_layers c') = Some a) ∧
              (∀ b, c_bgB c = Some b → c_bgB (ensure_layers c') = Some b) ∧
              is_Some (c_bgA (ensure_layers c')) ∧ is_Some (c_bgB (ensure_layers c'))).
Proof.
  split; [|split; [done|split; [|split]]].
  - unfold bootstrap. cbn. f_equal.
    + by destruct (global_bg d).
    + destruct (chapters_block d) as [c|]; [|done]. cbn. f_equal.
      by destruct c as [root [a|] [b|] ps ms].
  - by intros r Hr; cbn; rewrite Hr.
  - cbn. destruct (global_bg d); eauto.
  - intros c Hc. exists (bootstrap_chapters c). cbn. rewrite Hc.
    split; [done|].
    destruct c as [root [a|] [b|] ps ms]; cbn; repeat split; eauto;
      try discriminate; try (intros [?|?]; done).
Qed.

(** ** The header theme *)

Lemma contains_add_ne (tok tok' : string) (e : Element) :
  tok ≠ tok' → contains (classList_add tok e) tok' = contains e tok'.
Proof.
  intros Hne. unfold classList_add, contains; cbn [classList].
  destruct (bool_decide (tok ∈ classList e)); [reflexivity|].
  apply bool_decide_ext. rewrite elem_of_app, list_elem_of_singleton.
  split; [intros [?|?]; [done|congruence] | by left].
Qed.

Lemma contains_remove_ne (tok tok' : string) (e : Element) :
  tok ≠ tok' → contains (classList_remove tok e) tok' = contains e tok'.
Proof.
  intros Hne. unfold classList_remove, contains; cbn [classList].
  apply bool_decide_ext. rewrite list_elem_of_filter.
  split; [by intros [_ ?] | intros ?; split; [congruence|done]].
Qed.

(** X15. After every notification that has an entry, the header carries
    exactly one of the classes theme-light and theme-solid: theme-light
    when the first entry is intersecting, theme-solid when it is not.
    Later entries of the notification are not read, every other class,
    the attributes and the inline style stay, and a notification without
    entries changes nothing. *)
Theorem header_has_one_theme (h : Element) :
  (∀ (e : Entry) (es : list Entry),
     let h' := HeaderTheme.callback h (e :: es) in
     contains h' "theme-light" = isIntersecting e ∧
     contains h' "theme-solid" = negb (isIntersecting e) ∧
     (∀ tok, tok ≠ "theme-light" → tok ≠ "theme-solid" →
             contains h' tok = contains h tok) ∧
     attributes h' = attributes h ∧ style h' = style h ∧
     h' = HeaderTheme.callback h [e]) ∧
  HeaderTheme.callback h [] = h.
Proof.
  split; [|done]. intros e es h'. subst h'. cbn.
  destruct (isIntersecting e); cbn.
  - split; [by rewrite contains_remove_ne, contains_add|].
    split; [apply contains_remove|]. split; [|done].
    intros tok H1 H2. by rewrite contains_remove_ne, contains_add_ne.
  - split; [by rewrite contains_add_ne, contains_remove|].
    split; [apply contains_add|]. split; [|done].
    intros tok H1 H2. by rewrite contains_add_ne, contains_remove_ne.
Qed.

(** X16. [headerThemeAuto] attaches its observer at most once: it returns
    early without a header marked data-auto-theme or without a hero, it
    marks the header when it creates the observer, and on a header so
    marked (by an earlier run or by an inline script) it returns early. *)
Theorem header_observer_attached_once (header hero : option Element) :
  (∀ h', HeaderTheme.headerThemeAuto header hero = Some h' →
         ∃ h, header = Some h ∧ is_Some hero ∧
              truthy (getAttribute h "data-theme-observer") = false ∧
              h' = setAttribute "data-theme-observer" "1" h ∧
              HeaderTheme.headerThemeAuto (Some h') hero = None) ∧
  (header = None ∨ hero = None → HeaderTheme.headerThemeAuto header hero = None).
Proof.
  split.
  - intros h' H. unfold HeaderTheme.headerThemeAuto in H.
    destruct header as [h|]; [|discriminate]. destruct hero as [x|]; [|discriminate].
    destruct (truthy (getAttribute h "data-theme-observer")) eqn:Ht; [discriminate|].
    injection H as <-. exists h. repeat split; eauto.
    unfold HeaderTheme.headerThemeAuto, getAttribute, setAttribute; cbn.
    by rewrite lookup_insert_eq.
  - intros [-> | ->]; [done|]. by destruct header.
Qed.

Example header_theme_scrolled :
  ∃ h', HeaderTheme.headerThemeAuto (Some solid_header) (Some hero_section) = Some h' ∧
        classList (HeaderTheme.callback h' [mkEntry true hero_section]) =
          ["header"; "theme-light"] ∧
        classList (HeaderTheme.callback
                     (HeaderTheme.callback h' [mkEntry true hero_section])
                     [mkEntry false hero_section]) = ["header"; "theme-solid"].
Proof. eexists. split; [reflexivity|]. by vm_compute. Qed.

(** ** Reveal on scroll *)

Lemma reveal_idem (p : Element * bool) : Reveal.reveal (Reveal.reveal p) = Reveal.reveal p.
Proof. unfold Reveal.reveal; cbn. by rewrite classList_add_idem. Qed.

Lemma reveal_on_entry_lookup (st : Reveal.State) (e : Reveal.Entry) (i : nat) :
  Reveal.on_entry st e !! i =
    if Reveal.hits i e then Reveal.reveal <$> st !! i else st !! i.
Proof.
  unfold Reveal.on_entry, Reveal.hits.
  destruct (Reveal.isIntersecting e); cbn; [|done].
  case_bool_decide as H.
  - rewrite H, list_lookup_alter. by rewrite decide_True.
  - rewrite list_lookup_alter. by rewrite decide_False.
Qed.

Lemma reveal_callback_lookup (es : list Reveal.Entry) (st : Reveal.State) (i : nat) :
  Reveal.callback st es !! i =
    if existsb (Reveal.hits i) es then Reveal.reveal <$> st !! i else st !! i.
Proof.
  unfold Reveal.callback. revert st.
  induction es as [|e es IH]; intros st; cbn; [done|].
  rewrite IH, reveal_on_entry_lookup.
  destruct (Reveal.hits i e), (existsb (Reveal.hits i) es); cbn; try done.
  destruct (st !! i) as [p|]; cbn; [|done]. by rewrite reveal_idem.
Qed.

(** X17. Reveal on scroll touches exactly the elements that enter: over
    any notification, an element that is the target of an intersecting
    entry ends with the class in-view added and unobserved; every other
    element, with its observation, is as it was; none is added or lost.
    So a class, once there, stays, and an element once unobserved is never
    observed again. *)
Theorem reveal_exactly_the_entered (st : Reveal.State) (es : list Reveal.Entry) :
  length (Reveal.callback st es) = length st ∧
  (∀ i, existsb (Reveal.hits i) es = true →
        Reveal.callback st es !! i =
          (λ p, (classList_add "in-view" p.1, false)) <$> st !! i) ∧
  (∀ i, existsb (Reveal.hits i) es = false → Reveal.callback st es !! i = st !! i) ∧
  (∀ i el ob, st !! i = Some (el, ob) →
     ∃ el' ob', Reveal.callback st es !! i = Some (el', ob') ∧
                (∀ tok, contains el tok = true → contains el' tok = true) ∧
                (ob = false → ob' = false)).
Proof.
  split; [|split; [|split]].
  - unfold Reveal.callback. revert st.
    induction es as [|e es IH]; intros st; cbn; [done|].
    rewrite IH. unfold Reveal.on_entry.
    destruct (Reveal.isIntersecting e); [apply length_alter|done].
  - intros i H. by rewrite reveal_callback_lookup, H.
  - intros i H. by rewrite reveal_callback_lookup, H.
  - intros i el ob Hi. rewrite reveal_callback_lookup, Hi.
    destruct (existsb (Reveal.hits i) es); cbn.
    + eexists _, _. split; [reflexivity|]. split; [|done].
      intros tok Htok. destruct (decide ("in-view" = tok)) as [<-|Hne].
      * apply contains_add.
      * by rewrite contains_add_ne.
    + by eexists _, _.
Qed.

(** ** Step 0a of [bootstrap] *)

Lemma add_reveal_idem (n : Element) : add_reveal (add_reveal n) = add_reveal n.
Proof.
  unfold add_reveal at 2. destruct (contains n "reveal") eqn:H.
  - unfold add_reveal. by rewrite H.
  - unfold add_reveal. by rewrite contains_add, H.
Qed.

Lemma add_reveal_contains (n : Element) (tok : string) :
  contains (add_reveal n) tok = contains n tok || bool_decide (tok = "reveal").
Proof.
  unfold add_reveal. destruct (contains n "reveal") eqn:H.
  - case_bool_decide as E; [subst; by rewrite H | by rewrite orb_false_r].
  - case_bool_decide as E.
    + subst. by rewrite contains_add, orb_true_r.
    + rewrite orb_false_r. by apply contains_add_ne.
Qed.

Lemma matches_add_reveal (sel : list string) (n : Element) :
  "reveal" ∉ sel → matches sel (add_reveal n) = matches sel n.
Proof.
  unfold matches. induction sel as [|tok sel IH]; intros Hsel; cbn; [done|].
  rewrite IH by (intros H; apply Hsel; by right).
  rewrite add_reveal_contains. rewrite bool_decide_eq_false_2; [by rewrite orb_false_r|].
  intros ->. apply Hsel. left.
Qed.

Lemma candidates_without_reveal : Forall (λ sel, "reveal" ∉ sel) candidates.
Proof.
  unfold candidates.
  repeat (constructor;
          [rewrite !elem_of_cons, elem_of_nil; intros [?|[?|[]]]; discriminate|]).
  constructor.
Qed.

Lemma is_candidate_add_reveal (n : Element) :
  is_candidate (add_reveal n) = is_candidate n.
Proof.
  unfold is_candidate. pose proof candidates_without_reveal as H.
  induction H as [|sel sels Hsel _ IH]; cbn; [done|].
  by rewrite matches_add_reveal, IH.
Qed.

Lemma reveal_matching_fold (sels : list (list string)) (page : list Element) :
  Forall (λ sel, "reveal" ∉ sel) sels →
  foldl reveal_matching page sels =
    (λ n, if existsb (λ sel, matches sel n) sels then add_reveal n else n) <$> page.
Proof.
  intros H. revert page. induction H as [|sel sels Hsel Hsels IH]; intros page; cbn.
  - by rewrite list_fmap_id.
  - rewrite IH. unfold reveal_matching. rewrite <- list_fmap_compose.
    apply list_fmap_ext. intros i n _. cbn.
    destruct (matches sel n) eqn:Hm; cbn; [|done].
    destruct (existsb _ sels); [apply add_reveal_idem | done].
Qed.

Lemma bootstrap_reveal_map (page : list Element) :
  bootstrap_reveal page = (λ n, if is_candidate n then add_reveal n else n) <$> page.
Proof. apply reveal_matching_fold, candidates_without_reveal. Qed.

(** X18. Step 0a of [bootstrap] gives the class reveal to exactly the
    cards its six selectors match and that lack it: such an element ends
    with the class and is found by [$$('.reveal')]; every other element is
    unchanged; no class is lost, no element added, lost or moved; and the
    step is idempotent. *)
Theorem cards_get_reveal (page : list Element) :
  length (bootstrap_reveal page) = length page ∧
  (∀ i n, page !! i = Some n →
     ∃ n', bootstrap_reveal page !! i = Some n' ∧
           (is_candidate n = true →
              contains n' "reveal" = true ∧
              n' ∈ querySelectorAll ["reveal"] (bootstrap_reveal page)) ∧
           (is_candidate n = false ∨ contains n "reveal" = true → n' = n) ∧
           (∀ tok, tok ≠ "reveal" → contains n' tok = contains n tok) ∧
           attributes n' = attributes n ∧ style n' = style n) ∧
  bootstrap_reveal (bootstrap_reveal page) = bootstrap_reveal page.
Proof.
  rewrite !bootstrap_reveal_map. split; [apply length_fmap|]. split.
  - intros i n Hi. eexists. split; [by rewrite list_lookup_fmap, Hi|].
    split; [|split; [|split]].
    + intros Hc. rewrite Hc.
      assert (Hr : contains (add_reveal n) "reveal" = true).
      { by rewrite add_reveal_contains, orb_true_r. }
      split; [exact Hr|]. unfold querySelectorAll.
      apply list_elem_of_filter. split.
      * unfold matches. cbn. by rewrite Hr.
      * apply list_elem_of_fmap. exists n. rewrite Hc. split; [done|].
        by eapply list_elem_of_lookup_2.
    + intros [Hc|Hr]; [by rewrite Hc|].
      destruct (is_candidate n); [|done]. unfold add_reveal. by rewrite Hr.
    + intros tok Htok. destruct (is_candidate n); [|done].
      rewrite add_reveal_contains. by rewrite bool_decide_eq_false_2, orb_false_r.
    + destruct (is_candidate n); [|done]. unfold add_reveal.
      by destruct (contains n "reveal").
  - rewrite <- list_fmap_compose. apply list_fmap_ext. intros i n _.
    unfold compose. destruct (is_candidate n) eqn:Hc; cbv beta iota.
    + by rewrite is_candidate_add_reveal, Hc, add_reveal_idem.
    + by rewrite Hc.
Qed.

Example cards_page_reveal :
  classList <$> bootstrap_reveal cards_page =
    [["feature"; "card"; "reveal"]; ["lead"];
     ["card"; "blog-card"; "reveal"; "in-view"]] ∧
  (λ st, snd <$> Reveal.callback st [Reveal.mkEntry true 0; Reveal.mkEntry false 1])
    <$> Reveal.revealOnScroll (bootstrap_reveal cards_page) = Some [false; true].
Proof. by vm_compute. Qed.

(** ** The frame throttle of the parallax hero *)

Section ParallaxThrottle.
Context {View : Type}.
Implicit Types (st : Parallax.State View) (ev : Parallax.Event View).

Lemma parallax_iter_apply (n : nat) st :
  Parallax.view (Nat.iter n Parallax.apply st) = Parallax.view st ∧
  Parallax.frames (Nat.iter n Parallax.apply st) = Parallax.frames st ∧
  (n ≠ 0 → Parallax.ticking (Nat.iter n Parallax.apply st) = false ∧
           Parallax.shown (Nat.iter n Parallax.apply st) = Some (Parallax.view st)).
Proof.
  induction n as [|n (IHv & IHf & IH)]; [done|].
  rewrite Nat.iter_succ. set (X := Nat.iter n Parallax.apply st) in *.
  unfold Parallax.apply.
  cbn [Parallax.view Parallax.frames Parallax.ticking Parallax.shown].
  rewrite IHv, IHf. by repeat split.
Qed.

Lemma parallax_ok_step st ev : Parallax.ok st → Parallax.ok (Parallax.step st ev).
Proof.
  intros [Ht Hs]. destruct ev as [v|v|].
  - unfold Parallax.step, Parallax.onScroll, Parallax.moved, Parallax.ok.
    cbn [Parallax.view Parallax.frames Parallax.ticking Parallax.shown].
    destruct (Parallax.ticking st) eqn:E;
      cbn [Parallax.view Parallax.frames Parallax.ticking Parallax.shown].
    + specialize (Ht eq_refl). split; [done | by right].
    + split; [lia | right; lia].
  - split; [done | by left].
  - destruct (parallax_iter_apply (Parallax.frames st) st) as (Hv & _ & Hn).
    unfold Parallax.step, Parallax.ok.
    cbn [Parallax.view Parallax.frames Parallax.ticking Parallax.shown].
    destruct (Parallax.frames st) as [|k] eqn:Hk.
    + cbn [Nat.iter nat_rect]. split.
      * intros E. specialize (Ht E). lia.
      * destruct Hs as [Hs|Hs]; [by left | lia].
    + destruct (Hn ltac:(done)) as [E1 E2]. rewrite E1, E2, Hv.
      split; [done | by left].
Qed.

Lemma parallax_frame_done st :
  Parallax.ok st →
  Parallax.shown (Parallax.step st Parallax.Frame) =
    Some (Parallax.view (Parallax.step st Parallax.Frame)) ∧
  Parallax.frames (Parallax.step st Parallax.Frame) = 0%nat ∧
  Parallax.ticking (Parallax.step st Parallax.Frame) = false.
Proof.
  intros [Ht Hs].
  destruct (parallax_iter_apply (Parallax.frames st) st) as (Hv & _ & Hn).
  unfold Parallax.step.
  cbn [Parallax.view Parallax.frames Parallax.ticking Parallax.shown].
  destruct (Parallax.frames st) as [|k] eqn:Hk.
  - cbn [Nat.iter nat_rect]. destruct Hs as [Hs|Hs]; [|lia].
    split; [done|]. split; [done|].
    destruct (Parallax.ticking st); [|done]. specialize (Ht eq_refl). lia.
  - destruct (Hn ltac:(done)) as [E1 E2]. by rewrite E1, E2, Hv.
Qed.

Lemma parallax_ok_run (evs : list (Parallax.Event View)) st :
  Parallax.ok st → Parallax.ok (foldl Parallax.step st evs).
Proof.
  revert st. induction evs as [|ev evs IH]; intros st H; cbn; [done|].
  by apply IH, parallax_ok_step.
Qed.

Lemma parallax_frames_step (n : nat) st ev :
  (Parallax.frames st + (if Parallax.ticking st then 0 else 1) ≤ 1 + n)%nat →
  (Parallax.frames (Parallax.step st ev) +
     (if Parallax.ticking (Parallax.step st ev) then 0 else 1)
   ≤ 1 + (n + (if Parallax.is_resize ev then 1 else 0)))%nat.
Proof.
  intros H. destruct ev as [v|v|].
  - unfold Parallax.step, Parallax.onScroll, Parallax.moved, Parallax.is_resize.
    cbn [Parallax.view Parallax.frames Parallax.ticking Parallax.shown].
    destruct (Parallax.ticking st) eqn:E;
      cbn [Parallax.view Parallax.frames Parallax.ticking Parallax.shown].
    + rewrite ?E in *. lia.
    + rewrite ?E in *. lia.
  - cbn. destruct (Parallax.ticking st); lia.
  - unfold Parallax.step, Parallax.is_resize.
    destruct (Nat.iter _ _ _) as [v t f s].
    cbn [Parallax.view Parallax.frames Parallax.ticking Parallax.shown].
    destruct t; lia.
Qed.

Lemma parallax_resizes_cons ev (evs : list (Parallax.Event View)) :
  Parallax.resizes (ev :: evs) =
    ((if Parallax.is_resize ev then 1 else 0) + Parallax.resizes evs)%nat.
Proof.
  unfold Parallax.resizes. rewrite filter_cons.
  by destruct (Parallax.is_resize ev).
Qed.

Lemma parallax_frames_run (evs : list (Parallax.Event View)) (n : nat) st :
  (Parallax.frames st + (if Parallax.ticking st then 0 else 1) ≤ 1 + n)%nat →
  (Parallax.frames (foldl Parallax.step st evs) +
     (if Parallax.ticking (foldl Parallax.step st evs) then 0 else 1)
   ≤ 1 + (n + Parallax.resizes evs))%nat.
Proof.
  revert n st. induction evs as [|ev evs IH]; intros n st H.
  - unfold Parallax.resizes. cbn [foldl filter list_filter length]. lia.
  - pose proof (IH _ _ (parallax_frames_step n st ev H)) as IH'.
    rewrite parallax_resizes_cons. cbn [foldl]. lia.
Qed.

(** X19. Scrolling is throttled to one repaint a frame: from set-up, over
    any events, the frame callbacks queued number at most one more than
    the resizes seen, so at most one when the window is not resized
    (a resize clears [ticking] while a frame may be queued, and the next
    scroll then queues another). *)
Theorem parallax_frames_bounded
    (hero : option Element) (v0 : View) (st0 : Parallax.State View)
    (evs : list (Parallax.Event View)) :
  Parallax.parallaxHero false hero v0 = Some st0 →
  (Parallax.frames (foldl Parallax.step st0 evs) ≤ 1 + Parallax.resizes evs)%nat ∧
  (Parallax.resizes evs = 0%nat →
   (Parallax.frames (foldl Parallax.step st0 evs) ≤ 1)%nat).
Proof.
  intros H. cbn in H. destruct hero; [|discriminate]. injection H as <-.
  pose proof (parallax_frames_run evs 0 (Parallax.apply (Parallax.mkState v0 false 0 None))
                ltac:(cbn; lia)) as Hb.
  split; [lia | intros Hr; lia].
Qed.

(** X20. No scroll is lost: from set-up, over any events, the picture
    shows the window as it now is unless a frame is queued, and a frame is
    queued whenever [ticking] is set; right after the browser has run its
    frame callbacks the picture is up to date, no frame is queued and
    [ticking] is clear. *)
Theorem parallax_never_stale
    (hero : option Element) (v0 : View) (st0 : Parallax.State View)
    (evs : list (Parallax.Event View)) :
  Parallax.parallaxHero false hero v0 = Some st0 →
  let st := foldl Parallax.step st0 evs in
  (Parallax.shown st = Some (Parallax.view st) ∨ (1 ≤ Parallax.frames st)%nat) ∧
  (Parallax.ticking st = true → (1 ≤ Parallax.frames st)%nat) ∧
  let st' := Parallax.step st Parallax.Frame in
  Parallax.shown st' = Some (Parallax.view st') ∧
  Parallax.frames st' = 0%nat ∧ Parallax.ticking st' = false.
Proof.
  intros H st. cbn in H. destruct hero; [|discriminate]. injection H as <-.
  assert (Hok : Parallax.ok st).
  { apply parallax_ok_run. split; [done | by left]. }
  destruct Hok as [Ht Hs]. split; [exact Hs|]. split; [exact Ht|].
  by apply parallax_frame_done.
Qed.

End ParallaxThrottle.

Lemma parallax_frames_bounded_witness :
  Parallax.parallaxHero false (Some hero_section) 0%nat = Some parallax_start ∧
  Parallax.resizes scrolled_twice_a_frame = 0%nat ∧
  (Parallax.frames (foldl Parallax.step parallax_start scrolled_twice_a_frame) ≤ 1)%nat.
Proof.
  assert (H1 : Parallax.parallaxHero false (Some hero_section) 0%nat = Some parallax_start)
    by reflexivity.
  assert (H2 : Parallax.resizes scrolled_twice_a_frame = 0%nat) by reflexivity.
  refine (conj H1 (conj H2 _)).
  exact (proj2 (parallax_frames_bounded (Some hero_section) 0%nat parallax_start
                  scrolled_twice_a_frame H1) H2).
Defined.

Lemma parallax_never_stale_witness :
  Parallax.parallaxHero false (Some hero_section) 0%nat = Some parallax_start ∧
  Parallax.shown (Parallax.step (foldl Parallax.step parallax_start scrolled_twice_a_frame)
                    Parallax.Frame) = Some 30%nat.
Proof.
  assert (H1 : Parallax.parallaxHero false (Some hero_section) 0%nat = Some parallax_start)
    by reflexivity.
  refine (conj H1 _).
  exact (proj1 (proj2 (proj2
    (parallax_never_stale (Some hero_section) 0%nat parallax_start
       scrolled_twice_a_frame H1)))).
Defined.

Example parallax_two_scrolls_one_frame :
  foldl Parallax.step parallax_start [Parallax.Scroll 10%nat; Parallax.Scroll 20%nat] =
    Parallax.mkState 20%nat true 1%nat (Some 0%nat).
Proof. reflexivity. Qed.

Example parallax_resize_queues_second_frame :
  Parallax.frames (foldl Parallax.step parallax_start resized_between_scrolls) = 2%nat.
Proof. reflexivity. Qed.

(** ** [clamp] *)

(** X21. [clamp(v, min, max)] lies between [min] and [max] whenever
    [min <= max], is [v] itself when [v] already lies between them, and is
    [max] when the bounds are given in the wrong order; clamping twice is
    clamping once. *)
Theorem clamp_within (v lo hi : Q) :
  ((lo <= hi)%Q → (lo <= clamp v lo hi)%Q ∧ (clamp v lo hi <= hi)%Q) ∧
  ((lo <= v)%Q → (v <= hi)%Q → (clamp v lo hi == v)%Q) ∧
  ((hi < lo)%Q → (clamp v lo hi == hi)%Q) ∧
  (clamp (clamp v lo hi) lo hi == clamp v lo hi)%Q.
Proof.
  unfold clamp. split; [|split; [|split]].
  - intros H. split.
    + apply Q.min_glb; [exact H | apply Q.le_max_l].
    + apply Q.le_min_l.
  - intros H1 H2. rewrite (Q.max_r lo v) by exact H1. by apply Q.min_r.
  - intros H. apply Q.min_l.
    apply Qle_trans with lo; [by apply Qlt_le_weak | apply Q.le_max_l].
  - destruct (Qlt_le_dec hi lo) as [H|H].
    + assert (E : (Qmin hi (Qmax lo v) == hi)%Q).
      { apply Q.min_l.
        apply Qle_trans with lo; [by apply Qlt_le_weak | apply Q.le_max_l]. }
      rewrite E. apply Q.min_l.
      apply Qle_trans with lo; [by apply Qlt_le_weak | apply Q.le_max_l].
    + assert (E : (Qmax lo (Qmin hi (Qmax lo v)) == Qmin hi (Qmax lo v))%Q).
      { apply Q.max_r. apply Q.min_glb; [exact H | apply Q.le_max_l]. }
      rewrite E. apply Q.min_r, Q.le_min_l.
Qed.

Example clamp_progress :
  (clamp (3 # 2) 0 1 == 1)%Q ∧ (clamp (-1 # 2) 0 1 == 0)%Q ∧
  (clamp (1 # 4) 0 1 == 1 # 4)%Q.
Proof. by vm_compute. Qed.

(** ** Step 0c of [bootstrap]: markers at the top of sections *)

Lemma insertMarkerAtTop_nil (m : Node) : insertMarkerAtTop [] m = [m].
Proof. reflexivity. Qed.

Lemma insertMarkerAtTop_elem (e : Element) (ks kids : list Node) (m : Node) :
  insertMarkerAtTop (Elem e ks :: kids) m = m :: Elem e ks :: kids.
Proof. reflexivity. Qed.

Lemma insertMarkerAtTop_other (t : string) (kids : list Node) (m : Node) :
  insertMarkerAtTop (Other t :: kids) m = Other t :: insertMarkerAtTop kids m.
Proof.
  unfold insertMarkerAtTop. cbn [firstElementChild].
  by destruct (firstElementChild kids).
Qed.

Lemma firstElementChild_other (t : string) (kids : list Node) :
  firstElementChild (Other t :: kids) = S <$> firstElementChild kids.
Proof. reflexivity. Qed.

(** Where [insertMarkerAtTop] puts the marker. *)
Lemma insertMarkerAtTop_spec (kids : list Node) (e : Element) (ks : list Node) :
  let m := Elem e ks in
  let kids' := insertMarkerAtTop kids m in
  (∃ i, firstElementChild kids' = Some i ∧ kids' !! i = Some m ∧ delete i kids' = kids) ∧
  element_children kids' = m :: element_children kids ∧
  flat_map descendants kids' = (descendants m ++ flat_map descendants kids)%list.
Proof.
  intros m kids'. subst kids'.
  induction kids as [|[e0 ks0|t] kids IH].
  - rewrite insertMarkerAtTop_nil. split; [by exists 0%nat|]. split; [done|].
    cbn [flat_map]. by rewrite !app_nil_r.
  - rewrite insertMarkerAtTop_elem. split; [by exists 0%nat | done].
  - rewrite insertMarkerAtTop_other.
    destruct IH as ((i & Hi & Hm & Hd) & He & Hf). split; [|split].
    + exists (S i). rewrite firstElementChild_other, Hi.
      split; [done|]. split; [exact Hm|].
      change (Other t :: delete i (insertMarkerAtTop kids m) = Other t :: kids).
      by rewrite Hd.
    + unfold element_children in *. rewrite !filter_cons. cbn. exact He.
    + cbn [flat_map descendants]. cbn [app]. exact Hf.
Qed.

(** X22. [insertMarkerAtTop] makes the marker the first element child of
    its parent and moves nothing else: the marker sits at the position
    [firstElementChild] now returns, deleting it there gives back the child
    nodes as they were (text nodes before the first element stay before
    the marker), and the elements below the parent are the marker's
    followed by those there before. *)
Theorem insertMarkerAtTop_first (kids : list Node) (e : Element) (ks : list Node) :
  let m := Elem e ks in
  let kids' := insertMarkerAtTop kids m in
  (∃ i, firstElementChild kids' = Some i ∧ kids' !! i = Some m ∧ delete i kids' = kids) ∧
  element_children kids' = m :: element_children kids ∧
  flat_map descendants kids' = (descendants m ++ flat_map descendants kids)%list.
Proof. apply insertMarkerAtTop_spec. Qed.

Lemma row_marker_class (r : Row) : contains (row_marker r) "bg-chapter" = true.
Proof. reflexivity. Qed.

Lemma querySelector_inserted (r : Row) (kids : list Node) :
  querySelector "bg-chapter" (insertMarkerAtTop kids (Elem (row_marker r) [])) =
    Some (row_marker r).
Proof.
  unfold querySelector.
  destruct (insertMarkerAtTop_spec kids (row_marker r) []) as (_ & _ & ->).
  cbn [descendants flat_map app]. rewrite filter_cons.
  rewrite decide_True by apply row_marker_class. done.
Qed.

(** X23. Step 0c is non-destructive: for a section that is there, the
    body of [mapping.forEach] leaves the section as it is when a
    [.bg-chapter] is already below it, and otherwise inserts the row's
    marker, with the row's index, image and tint, as the section's first
    element child, before every element there was.  Either way a marker is
    found below the section afterwards, and running the body again changes
    nothing.  Without the section nothing happens. *)
Theorem ensure_marker_non_destructive (r : Row) (kids : list Node) :
  ensure_marker r None = None ∧
  ∃ kids', ensure_marker r (Some kids) = Some kids' ∧
    is_Some (querySelector "bg-chapter" kids') ∧
    (is_Some (querySelector "bg-chapter" kids) → kids' = kids) ∧
    (querySelector "bg-chapter" kids = None →
       querySelector "bg-chapter" kids' = Some (row_marker r) ∧
       element_children kids' = Elem (row_marker r) [] :: element_children kids ∧
       flat_map descendants kids' = row_marker r :: flat_map descendants kids) ∧
    getAttribute (row_marker r) "data-idx" = Some (row_idx r) ∧
    getAttribute (row_marker r) "data-bg" = Some (row_bg r) ∧
    getAttribute (row_marker r) "data-tint" = Some (row_tint r) ∧
    ensure_marker r (Some kids') = Some kids'.
Proof.
  split; [done|]. unfold ensure_marker.
  assert (Hattrs : getAttribute (row_marker r) "data-idx" = Some (row_idx r) ∧
                   getAttribute (row_marker r) "data-bg" = Some (row_bg r) ∧
                   getAttribute (row_marker r) "data-tint" = Some (row_tint r)).
  { unfold row_marker, getAttribute, setAttribute; cbn [attributes].
    split; [|split].
    - rewrite lookup_insert_ne by done. rewrite lookup_insert_ne by done.
      apply lookup_insert_eq.
    - rewrite lookup_insert_ne by done. apply lookup_insert_eq.
    - apply lookup_insert_eq. }
  destruct (querySelector "bg-chapter" kids) as [x|] eqn:Hq.
  - exists kids. rewrite Hq. split; [done|]. split; [done|]. split; [done|].
    split; [done|]. destruct Hattrs as (? & ? & ?). by repeat split.
  - eexists. split; [reflexivity|]. rewrite querySelector_inserted.
    split; [done|]. split; [by intros [? ?]|]. split.
    + intros _. split; [done|].
      destruct (insertMarkerAtTop_spec kids (row_marker r) []) as (_ & He & Hf).
      split; [exact He | exact Hf].
    + destruct Hattrs as (? & ? & ?). by repeat split.
Qed.

Example hero_gets_marker :
  ensure_marker (mkRow "1" ".hero" "background-photos/black.jpeg" "rgba(59,130,246,.10)")
    (Some hero_children) =
  Some [Other " ";
        Elem (row_marker (mkRow "1" ".hero" "background-photos/black.jpeg"
                            "rgba(59,130,246,.10)")) [];
        Elem (html "hero-media" []) [Elem (html "" []) []]; Other " ";
        Elem (html "hero-copy" []) []].
Proof. reflexivity. Qed.

Example mapping_rows_carry_image_and_tint :
  Forall (λ r, truthy (getAttribute (row_marker r) "data-bg") = true ∧
               truthy (getAttribute (row_marker r) "data-tint") = true) mapping.
Proof. repeat constructor. Qed.

(** ** The rewrite of the callbacks kept the layer machine *)

Lemma with_preloaded_on_entry {B : Browser} (log : list string) (st : Global.State) (e : Entry) :
  with_preloaded log (Global.on_entry st e) =
  Earlier.global_on_entry (with_preloaded log st) e.
Proof.
  unfold Global.on_entry, Earlier.global_on_entry.
  destruct (isIntersecting e); cbn [negb]; [|done].
  destruct (truthy (getAttribute (target e) "data-bg")); cbn [negb]; [|done].
  generalize (or_empty (getAttribute (target e) "data-bg")). intros url.
  generalize (js_or (getAttribute (target e) "data-tint") None). intros tint.
  assert (Ha : Global.active (with_preloaded log st) = Global.active st) by done.
  rewrite Ha. destruct (includes _ url).
  - destruct st as [a b [o|] u obs pre]; unfold with_preloaded; global_fields;
      by destruct (truthy tint).
  - destruct st as [a b [o|] [|] obs pre]; unfold with_preloaded; global_fields;
      by destruct (truthy tint).
Qed.

(** X24. Adding [preload] changed nothing else in the global callback:
    over any notification the callback as first written ends with the
    layers, the overlay, [useA] and the observed markers that the present
    one ends with; it only never starts a fetch. *)
Theorem global_rewrite_kept_layers {B : Browser} (st : Global.State) (es : list Entry) :
  foldl Earlier.global_on_entry st es =
    with_preloaded (Global.preloaded st) (Global.callback st es).
Proof.
  assert (H : ∀ log s, foldl Earlier.global_on_entry (with_preloaded log s) es =
                       with_preloaded log (Global.callback s es)).
  { unfold Global.callback. intros log.
    induction es as [|e es IH]; intros s; cbn [foldl]; [done|].
    by rewrite <- IH, with_preloaded_on_entry. }
  rewrite <- H. by destruct st.
Qed.

Lemma same_chapter_layers_step {B : Browser} (st st' : Chapters.State) (e : Entry) :
  same_chapter_layers st st' →
  same_chapter_layers (Chapters.on_entry st e) (Earlier.chapters_on_entry st' e) ∧
  Chapters.panels (Earlier.chapters_on_entry st' e) = Chapters.panels st' ∧
  Chapters.preloaded (Earlier.chapters_on_entry st' e) = Chapters.preloaded st'.
Proof.
  intros (HA & HB & HU).
  assert (Hact : Chapters.active st' = Chapters.active st).
  { unfold Chapters.active. by rewrite HA, HB, HU. }
  unfold Chapters.on_entry, Earlier.chapters_on_entry.
  destruct (isIntersecting e); cbn [negb]; [|done].
  destruct (truthy (getAttribute (target e) "data-bg")); cbn [negb]; [|done].
  generalize (or_empty (getAttribute (target e) "data-bg")). intros url.
  generalize (or_empty (js_or (getAttribute (target e) "data-idx") (Some ""))).
  intros idx. rewrite Hact. destruct (includes _ url); [done|].
  destruct st as [c a b ps u obs pre], st' as [c' a' b' ps' u' obs' pre'].
  cbn in HA, HB, HU. subst a' b' u'.
  unfold same_chapter_layers, Earlier.set_dataset_active.
  by destruct u; chapters_fields.
Qed.

Lemma same_chapter_layers_run {B : Browser} (es : list Entry) (s s' : Chapters.State) :
  same_chapter_layers s s' →
  same_chapter_layers (foldl Chapters.on_entry s es)
                      (foldl Earlier.chapters_on_entry s' es) ∧
  Chapters.panels (foldl Earlier.chapters_on_entry s' es) = Chapters.panels s' ∧
  Chapters.preloaded (foldl Earlier.chapters_on_entry s' es) = Chapters.preloaded s'.
Proof.
  revert s s'. induction es as [|e es IH]; intros s s' H; cbn [foldl]; [done|].
  destruct (same_chapter_layers_step s s' e H) as (H' & Hp & Hl).
  destruct (IH _ _ H') as (IH1 & IH2 & IH3).
  split; [exact IH1|]. split; congruence.
Qed.

(** X25. The rewrite of the pinned callback kept its layer machine and
    added the panels: over any notification the callback as first written
    ends with the same two layers and the same [useA] as the present one,
    while it never toggles a panel and never starts a fetch; and on an
    entry whose image is already shown it changes nothing at all, so the
    block's data-active stays at the marker of the last swap. *)
Theorem chapters_rewrite_kept_layers {B : Browser} (st : Chapters.State) (es : list Entry) :
  same_chapter_layers (Chapters.callback st es) (foldl Earlier.chapters_on_entry st es) ∧
  Chapters.panels (foldl Earlier.chapters_on_entry st es) = Chapters.panels st ∧
  Chapters.preloaded (foldl Earlier.chapters_on_entry st es) = Chapters.preloaded st ∧
  (∀ e, truthy (getAttribute (target e) "data-bg") = true →
        includes (backgroundImage (Chapters.active st))
                 (or_empty (getAttribute (target e) "data-bg")) = true →
        Earlier.chapters_on_entry st e = st).
Proof.
  assert (H : same_chapter_layers st st) by done.
  destruct (same_chapter_layers_run es st st H) as (H1 & H2 & H3).
  split; [exact H1|]. split; [exact H2|]. split; [exact H3|].
  intros e Ht Hinc. unfold Earlier.chapters_on_entry.
  rewrite Ht, Hinc. by destruct (isIntersecting e).
Qed.

(** ** Swaps and runs, by what the browser reads back *)

(** X26. What a swap does in the global variant: an entered marker whose
    URL is not found in the style text of the active layer makes the
    callback fetch the URL, assign [`url('${url}')`] to the inactive
    layer, give that layer the class is-active, take the class from the
    layer that had it and flip [useA]; the layer left keeps its image.  The
    layer now active shows what the browser kept of the assignment: the
    URL itself when it is plain, and the image it had when the browser
    drops the declaration. *)
Theorem swap_paints_the_hidden_layer {B : Browser}
    (st : Global.State) (e : Entry) (url : string) :
  isIntersecting e = true →
  getAttribute (target e) "data-bg" = Some url →
  url ≠ "" →
  includes (backgroundImage (Global.active st)) url = false →
  let st' := Global.on_entry st e in
  Global.useA st' = negb (Global.useA st) ∧
  Global.active st' =
    classList_add "is-active" (set_backgroundImage url (Global.inactive st)) ∧
  Global.inactive st' = classList_remove "is-active" (Global.active st) ∧
  is_active (Global.active st') = true ∧
  is_active (Global.inactive st') = false ∧
  backgroundImage (Global.inactive st') = backgroundImage (Global.active st) ∧
  Global.preloaded st' = (Global.preloaded st ++ [url])%list ∧
  (plain_url url = true → backgroundImage (Global.active st') = serialized_url url) ∧
  (∀ v, css_image url = Some v → backgroundImage (Global.active st') = v) ∧
  (css_image url = None →
   backgroundImage (Global.active st') = backgroundImage (Global.inactive st)).
Proof.
  intros Hi Hu Hne Hinc st'.
  destruct (global_swap_effects st e url Hi Hu Hne Hinc)
    as (H1 & H2 & H3 & H4 & H5 & H6 & H7 & H8).
  fold st' in H1, H2, H3, H4, H5, H6, H7, H8.
  do 7 (split; [assumption|]).
  split; [|split].
  - intros Hp. by rewrite H4, (css_image_plain url Hp).
  - intros v Hv. by rewrite H4, Hv.
  - intros Hv. by rewrite H4, Hv.
Qed.

Lemma swap_paints_the_hidden_layer_witness :
  isIntersecting white_entered = true ∧
  getAttribute (target white_entered) "data-bg" = Some "white.jpeg" ∧
  "white.jpeg" ≠ "" ∧
  includes (backgroundImage (Global.active global_start)) "white.jpeg" = false ∧
  plain_url "white.jpeg" = true ∧
  backgroundImage (Global.active (Global.on_entry global_start white_entered)) =
    serialized_url "white.jpeg".
Proof.
  assert (H1 : isIntersecting white_entered = true) by reflexivity.
  assert (H2 : getAttribute (target white_entered) "data-bg" = Some "white.jpeg")
    by reflexivity.
  assert (H3 : "white.jpeg" ≠ "") by discriminate.
  assert (H4 : includes (backgroundImage (Global.active global_start)) "white.jpeg" = false)
    by reflexivity.
  assert (H5 : plain_url "white.jpeg" = true) by reflexivity.
  refine (conj H1 (conj H2 (conj H3 (conj H4 (conj H5 _))))).
  exact (proj1 (proj2 (proj2 (proj2 (proj2 (proj2 (proj2 (proj2
    (swap_paints_the_hidden_layer global_start white_entered "white.jpeg"
       H1 H2 H3 H4)))))))) H5).
Defined.

(** X27. A run of entries with one image swaps at most once when the
    browser reads [`url('${u}')`] back with [u] in it, as it does for
    every plain URL: in a run whose first entry is an entered marker,
    whatever follows in the run leaves both layers, the choice of active
    layer and the fetches as the first entry left them.  Both variants,
    from every state. *)
Theorem readable_image_swaps_at_most_once {B : Browser} :
  (∀ u, plain_url u = true → painted_back u) ∧
  (∀ (st : Global.State) (u : option string) (e : Entry) (es : list Entry),
     isIntersecting e = true →
     same_image u (e :: es) →
     (truthy u = true → painted_back (or_empty u)) →
     let st1 := Global.on_entry st e in
     global_same_layers st1 (Global.callback st1 es) ∧
     backgroundImage (Global.active (Global.callback st1 es)) =
       backgroundImage (Global.active st1)) ∧
  (∀ (st : Chapters.State) (u : option string) (e : Entry) (es : list Entry),
     isIntersecting e = true →
     same_image u (e :: es) →
     (truthy u = true → painted_back (or_empty u)) →
     let st1 := Chapters.on_entry st e in
     chapters_same_layers st1 (Chapters.callback st1 es) ∧
     backgroundImage (Chapters.active (Chapters.callback st1 es)) =
       backgroundImage (Chapters.active st1)).
Proof.
  split; [exact plain_painted_back|].
  split; [exact global_run_swaps_once | exact chapters_run_swaps_once].
Qed.

Lemma white_painted_back : truthy (Some "white.jpeg") = true → painted_back "white.jpeg".
Proof. intros _. exists (serialized_url "white.jpeg"). split; reflexivity. Defined.

(** The global part, at the white marker entering three times. *)
Lemma readable_image_swaps_at_most_once_witness :
  isIntersecting white_entered = true ∧
  same_image (Some "white.jpeg") (white_entered :: white_again) ∧
  painted_back "white.jpeg" ∧
  backgroundImage
    (Global.active (Global.callback (Global.on_entry global_start white_entered)
                      white_again)) =
  backgroundImage (Global.active (Global.on_entry global_start white_entered)).
Proof.
  assert (H1 : isIntersecting white_entered = true) by reflexivity.
  assert (H2 : same_image (Some "white.jpeg") (white_entered :: white_again)).
  { repeat constructor. }
  refine (conj H1 (conj H2 (conj (white_painted_back eq_refl) _))).
  exact (proj2 (proj1 (proj2 readable_image_swaps_at_most_once)
                  global_start (Some "white.jpeg") white_entered white_again H1 H2
                  white_painted_back)).
Defined.

(** X28. In the pinned variant an entered marker whose URL occurs in the
    style text of the active layer swaps nothing, and the current panel
    becomes the one with the marker's data-idx.  So of two entered markers
    in a row that share an image the browser reads back with the URL in
    it, the second only moves the panel. *)
Theorem shown_image_moves_panel_only {B : Browser} :
  (∀ (st : Chapters.State) (e : Entry) (url : string),
     isIntersecting e = true →
     getAttribute (target e) "data-bg" = Some url →
     url ≠ "" →
     includes (backgroundImage (Chapters.active st)) url = true →
     let st' := Chapters.on_entry st e in
     chapters_same_layers st st' ∧
     dataset_active st' = Some (marker_idx (target e)) ∧
     current_flags st' =
       (λ p, bool_decide (getAttribute p "data-idx" = Some (marker_idx (target e))))
         <$> Chapters.panels st) ∧
  (∀ (st : Chapters.State) (e1 e2 : Entry) (url : string),
     isIntersecting e1 = true → isIntersecting e2 = true →
     getAttribute (target e1) "data-bg" = Some url →
     getAttribute (target e2) "data-bg" = Some url →
     url ≠ "" →
     painted_back url →
     let s1 := Chapters.on_entry st e1 in
     let s2 := Chapters.on_entry s1 e2 in
     chapters_same_layers s1 s2 ∧
     dataset_active s2 = Some (marker_idx (target e2)) ∧
     current_flags s2 =
       (λ p, bool_decide (getAttribute p "data-idx" = Some (marker_idx (target e2))))
         <$> Chapters.panels s1).
Proof.
  split; [exact chapters_shown_moves_panel|].
  intros st e1 e2 url Hi1 Hi2 Hu1 Hu2 Hne Hback s1 s2.
  apply (chapters_shown_moves_panel s1 e2 url Hi2 Hu2 Hne).
  apply (chapters_entered_shown st (Some url) e1 Hi1 Hu1); [|exact Hback].
  cbn. unfold truthy_string. by rewrite bool_decide_eq_true_2.
Qed.

Lemma a_jpg_painted_back : painted_back "a.jpg".
Proof. exists (serialized_url "a.jpg"). split; reflexivity. Defined.

(** The second part, at segment 2 entering after segment 1. *)
Lemma shown_image_moves_panel_only_witness :
  isIntersecting (entered segment1) = true ∧
  isIntersecting (entered segment2) = true ∧
  getAttribute (target (entered segment1)) "data-bg" = Some "a.jpg" ∧
  getAttribute (target (entered segment2)) "data-bg" = Some "a.jpg" ∧
  "a.jpg" ≠ "" ∧
  painted_back "a.jpg" ∧
  dataset_active
    (Chapters.on_entry (Chapters.on_entry chapters_start (entered segment1))
       (entered segment2)) = Some "2".
Proof.
  assert (H1 : isIntersecting (entered segment1) = true) by reflexivity.
  assert (H2 : isIntersecting (entered segment2) = true) by reflexivity.
  assert (H3 : getAttribute (target (entered segment1)) "data-bg" = Some "a.jpg")
    by reflexivity.
  assert (H4 : getAttribute (target (entered segment2)) "data-bg" = Some "a.jpg")
    by reflexivity.
  assert (H5 : "a.jpg" ≠ "") by discriminate.
  refine (conj H1 (conj H2 (conj H3 (conj H4 (conj H5 (conj a_jpg_painted_back _)))))).
  exact (proj1 (proj2
    (proj2 shown_image_moves_panel_only chapters_start (entered segment1)
       (entered segment2) "a.jpg" H1 H2 H3 H4 H5 a_jpg_painted_back))).
Defined.

(** X29. A declaration the browser drops repaints nothing, and the swap
    goes on all the same: when the browser drops [`url('${url}')`] (as it
    does for a URL with an apostrophe, which ends the CSS string early) and
    neither layer has the URL in its style text, every entry of the marker
    fetches the URL again, moves the class is-active to the other layer
    and flips [useA], while both layers keep the images they had. *)
Theorem dropped_image_swaps_every_time {B : Browser}
    (st : Global.State) (e : Entry) (url : string) :
  isIntersecting e = true →
  getAttribute (target e) "data-bg" = Some url →
  url ≠ "" →
  css_image url = None →
  includes (backgroundImage (Global.layerA st)) url = false →
  includes (backgroundImage (Global.layerB st)) url = false →
  let st1 := Global.on_entry st e in
  let st2 := Global.on_entry st1 e in
  Global.useA st1 = negb (Global.useA st) ∧
  Global.useA st2 = Global.useA st ∧
  is_active (Global.active st1) = true ∧ is_active (Global.inactive st1) = false ∧
  is_active (Global.active st2) = true ∧ is_active (Global.inactive st2) = false ∧
  backgroundImage (Global.layerA st1) = backgroundImage (Global.layerA st) ∧
  backgroundImage (Global.layerB st1) = backgroundImage (Global.layerB st) ∧
  backgroundImage (Global.layerA st2) = backgroundImage (Global.layerA st) ∧
  backgroundImage (Global.layerB st2) = backgroundImage (Global.layerB st) ∧
  Global.preloaded st2 = (Global.preloaded st ++ [url; url])%list.
Proof.
  intros Hi Hu Hne Hdrop HA HB st1 st2.
  assert (Hstep : ∀ s, includes (backgroundImage (Global.layerA s)) url = false →
            includes (backgroundImage (Global.layerB s)) url = false →
            Global.useA (Global.on_entry s e) = negb (Global.useA s) ∧
            is_active (Global.active (Global.on_entry s e)) = true ∧
            is_active (Global.inactive (Global.on_entry s e)) = false ∧
            backgroundImage (Global.layerA (Global.on_entry s e)) =
              backgroundImage (Global.layerA s) ∧
            backgroundImage (Global.layerB (Global.on_entry s e)) =
              backgroundImage (Global.layerB s) ∧
            Global.preloaded (Global.on_entry s e) = (Global.preloaded s ++ [url])%list).
  { intros s HsA HsB.
    assert (Hinc : includes (backgroundImage (Global.active s)) url = false).
    { unfold Global.active. by destruct (Global.useA s). }
    destruct (global_swap_effects s e url Hi Hu Hne Hinc)
      as (HU & _ & _ & _ & Hact & Hin & _ & HP).
    destruct (global_swap_layers s e url Hi Hu Hne Hinc) as (Hold & Hnew & _).
    assert (Hbg_new : backgroundImage
              (classList_add "is-active" (set_backgroundImage url (Global.inactive s))) =
              backgroundImage (Global.inactive s)).
    { by rewrite backgroundImage_add, backgroundImage_set, Hdrop. }
    split; [exact HU|]. split; [exact Hact|]. split; [exact Hin|].
    split; [|split; [|exact HP]];
      unfold global_layer, Global.active, Global.inactive in *;
      destruct (Global.useA s); cbn [negb] in *;
      first [ by rewrite Hold | by rewrite Hnew, Hbg_new ]. }
  destruct (Hstep st HA HB) as (U1 & A1 & I1 & LA1 & LB1 & P1).
  fold st1 in U1, A1, I1, LA1, LB1, P1.
  destruct (Hstep st1) as (U2 & A2 & I2 & LA2 & LB2 & P2);
    [by rewrite LA1 | by rewrite LB1 |].
  fold st2 in U2, A2, I2, LA2, LB2, P2.
  rewrite U2, U1, negb_involutive, LA2, LB2, LA1, LB1, P2, P1, <- (assoc_L (++)).
  by repeat split.
Qed.

Lemma dropped_image_swaps_every_time_witness :
  isIntersecting apostrophe_entered = true ∧
  getAttribute (target apostrophe_entered) "data-bg" = Some "it's.jpg" ∧
  "it's.jpg" ≠ "" ∧
  css_image "it's.jpg" = None ∧
  includes (backgroundImage (Global.layerA global_start)) "it's.jpg" = false ∧
  includes (backgroundImage (Global.layerB global_start)) "it's.jpg" = false ∧
  Global.preloaded (Global.on_entry (Global.on_entry global_start apostrophe_entered)
                      apostrophe_entered) =
    ["black.jpeg"; "it's.jpg"; "it's.jpg"].
Proof.
  assert (H1 : isIntersecting apostrophe_entered = true) by reflexivity.
  assert (H2 : getAttribute (target apostrophe_entered) "data-bg" = Some "it's.jpg")
    by reflexivity.
  assert (H3 : "it's.jpg" ≠ "") by discriminate.
  assert (H4 : css_image "it's.jpg" = None) by reflexivity.
  assert (H5 : includes (backgroundImage (Global.layerA global_start)) "it's.jpg" = false)
    by reflexivity.
  assert (H6 : includes (backgroundImage (Global.layerB global_start)) "it's.jpg" = false)
    by reflexivity.
  refine (conj H1 (conj H2 (conj H3 (conj H4 (conj H5 (conj H6 _)))))).
  exact (proj2 (proj2 (proj2 (proj2 (proj2 (proj2 (proj2 (proj2 (proj2 (proj2
    (dropped_image_swaps_every_time global_start apostrophe_entered "it's.jpg"
       H1 H2 H3 H4 H5 H6))))))))))).
Defined.

(** ** The further properties at the scenario pages *)

Lemma globalBG_starts_iff_witness :
  global_bg two_section_page = None ∧
  bg_chapter two_section_page ≠ [] ∧
  globalBG (bootstrap two_section_page) ≠ None.
Proof.
  assert (H1 : global_bg two_section_page = None) by reflexivity.
  assert (H2 : bg_chapter two_section_page ≠ []) by discriminate.
  refine (conj H1 (conj H2 _)).
  intros H. apply H2.
  exact (proj1 (proj2 (globalBG_starts_iff two_section_page) H1) H).
Defined.

Lemma header_observer_attached_once_witness :
  HeaderTheme.headerThemeAuto (Some solid_header) (Some hero_section) =
    Some (setAttribute "data-theme-observer" "1" solid_header) ∧
  HeaderTheme.headerThemeAuto
    (Some (setAttribute "data-theme-observer" "1" solid_header)) (Some hero_section) = None.
Proof.
  assert (H : HeaderTheme.headerThemeAuto (Some solid_header) (Some hero_section) =
              Some (setAttribute "data-theme-observer" "1" solid_header)) by reflexivity.
  refine (conj H _).
  destruct (proj1 (header_observer_attached_once (Some solid_header) (Some hero_section))
              _ H) as (h & _ & _ & _ & _ & Hagain).
  exact Hagain.
Defined.

Lemma reveal_exactly_the_entered_witness :
  existsb (Reveal.hits 0) [Reveal.mkEntry true 0; Reveal.mkEntry false 1] = true ∧
  existsb (Reveal.hits 1) [Reveal.mkEntry true 0; Reveal.mkEntry false 1] = false ∧
  Reveal.callback [(html "card reveal" [], true); (html "card reveal" [], true)]
    [Reveal.mkEntry true 0; Reveal.mkEntry false 1] !! 0%nat =
    Some (classList_add "in-view" (html "card reveal" []), false) ∧
  Reveal.callback [(html "card reveal" [], true); (html "card reveal" [], true)]
    [Reveal.mkEntry true 0; Reveal.mkEntry false 1] !! 1%nat =
    Some (html "card reveal" [], true).
Proof.
  assert (H1 : existsb (Reveal.hits 0) [Reveal.mkEntry true 0; Reveal.mkEntry false 1]
               = true) by reflexivity.
  assert (H2 : existsb (Reveal.hits 1) [Reveal.mkEntry true 0; Reveal.mkEntry false 1]
               = false) by reflexivity.
  refine (conj H1 (conj H2 (conj _ _))).
  - exact (proj1 (proj2 (reveal_exactly_the_entered
      [(html "card reveal" [], true); (html "card reveal" [], true)]
      [Reveal.mkEntry true 0; Reveal.mkEntry false 1])) 0%nat H1).
  - exact (proj1 (proj2 (proj2 (reveal_exactly_the_entered
      [(html "card reveal" [], true); (html "card reveal" [], true)]
      [Reveal.mkEntry true 0; Reveal.mkEntry false 1]))) 1%nat H2).
Defined.

Lemma cards_get_reveal_witness :
  cards_page !! 0%nat = Some (html "feature card" []) ∧
  is_candidate (html "feature card" []) = true ∧
  ∃ n', bootstrap_reveal cards_page !! 0%nat = Some n' ∧ contains n' "reveal" = true.
Proof.
  assert (H1 : cards_page !! 0%nat = Some (html "feature card" [])) by reflexivity.
  assert (H2 : is_candidate (html "feature card" []) = true) by reflexivity.
  refine (conj H1 (conj H2 _)).
  destruct (proj1 (proj2 (cards_get_reveal cards_page)) 0%nat _ H1)
    as (n' & Hn & Hc & _).
  exact (ex_intro _ n' (conj Hn (proj1 (Hc H2)))).
Defined.

Lemma clamp_within_witness :
  (0 <= 1)%Q ∧ (0 <= clamp (7 # 2) 0 1)%Q ∧ (clamp (7 # 2) 0 1 <= 1)%Q.
Proof.
  assert (H : (0 <= 1)%Q) by discriminate.
  exact (conj H (proj1 (clamp_within (7 # 2) 0 1) H)).
Defined.

Lemma chapters_rewrite_kept_layers_witness :
  let s1 := Chapters.on_entry chapters_start (entered segment1) in
  truthy (getAttribute (target (entered segment2)) "data-bg") = true ∧
  includes (backgroundImage (Chapters.active s1))
           (or_empty (getAttribute (target (entered segment2)) "data-bg")) = true ∧
  Earlier.chapters_on_entry s1 (entered segment2) = s1.
Proof.
  intros s1.
  assert (H1 : truthy (getAttribute (target (entered segment2)) "data-bg") = true)
    by reflexivity.
  assert (H2 : includes (backgroundImage (Chapters.active s1))
                 (or_empty (getAttribute (target (entered segment2)) "data-bg")) = true)
    by reflexivity.
  refine (conj H1 (conj H2 _)).
  exact (proj2 (proj2 (proj2 (chapters_rewrite_kept_layers s1 []))) (entered segment2) H1 H2).
Defined.
